(** * medfit: the shopping-cart provider of [src/contexts/CartContext.tsx]

    A shallow embedding of the cart state manager and the properties its
    specification states about it.

    Modelling choices, all of them visible in the definitions below:
    - a JavaScript [number] holding a quantity is an integer of [Z]
      (no rounding, no [NaN]);
    - an optional field or argument ([x?: T], possibly [undefined]) is an
      [option];
    - an array is a [list]; the elements of the cart array are pairwise
      distinct objects (every operation builds fresh objects or keeps the
      old ones in place, none stores one object twice), so the reference
      comparison [existingItem !== item] of [updateItemSize] is a comparison
      of positions;
    - the [localStorage] entry ['cart'] is an [option]: [None] when the key
      is absent, [Some l] when it holds [JSON.stringify l];
    - a state updater given to [setItems] runs once per call. *)

From Stdlib Require Import List String ZArith Bool Arith Lia.
Import ListNotations.

Local Open Scope Z_scope.

(** ** Data model *)

(** [Item] of [@/types], reduced to the fields the provider reads for its
    reconciliation rules. *)
Record Item : Type := mkItem {
  id : string;
  sizes : option (list string);
  categoryIds : option (list string)
}.

Record CartItem : Type := mkCartItem {
  product : Item;
  quantity : Z;
  selectedVariants : option (list (string * string));
  selectedSize : option string
}.

(** ** JavaScript helpers *)

Section ArrayHelpers.
Context {A : Type}.

(** [Array.prototype.findIndex]; [None] stands for the result [-1]. *)
Fixpoint findIndex (p : A -> bool) (l : list A) : option nat :=
  match l with
  | [] => None
  | x :: r => if p x then Some 0%nat
              else match findIndex p r with
                   | Some i => Some (S i)
                   | None => None
                   end
  end.

(** [Array.prototype.map] with the position of every element. *)
Fixpoint mapi_from (n : nat) (f : nat -> A -> A) (l : list A) : list A :=
  match l with
  | [] => []
  | x :: r => f n x :: mapi_from (S n) f r
  end.

Definition mapi (f : nat -> A -> A) (l : list A) : list A := mapi_from 0 f l.

(** [Array.prototype.filter] with the position of every element. *)
Fixpoint filteri_from (n : nat) (f : A -> nat -> bool) (l : list A) : list A :=
  match l with
  | [] => []
  | x :: r => if f x n then x :: filteri_from (S n) f r
              else filteri_from (S n) f r
  end.

Definition filteri (f : A -> nat -> bool) (l : list A) : list A :=
  filteri_from 0 f l.

(** [arr[i] = f(arr[i])] on a copy; out of range the copy is returned as it
    is (the provider only writes at an index [findIndex] returned). *)
Fixpoint update_at (i : nat) (f : A -> A) (l : list A) : list A :=
  match l, i with
  | [], _ => []
  | x :: r, O => f x :: r
  | x :: r, S j => x :: update_at j f r
  end.
End ArrayHelpers.

(** [a === b] on [string | undefined]. *)
Definition strictEq (a b : option string) : bool :=
  match a, b with
  | Some x, Some y => String.eqb x y
  | None, None => true
  | _, _ => false
  end.

(** [q || d] on numbers: [0] is falsy. *)
Definition numOr (q d : Z) : Z := if q =? 0 then d else q.

(** [s || d] on [string | undefined]: [undefined] and the empty string are falsy. *)
Definition strOr (s d : option string) : option string :=
  match s with
  | Some EmptyString => d
  | Some x => Some x
  | None => d
  end.

(** [v || d] on [object | undefined]: every object is truthy. *)
Definition objOr {A : Type} (v d : option A) : option A :=
  match v with
  | Some x => Some x
  | None => d
  end.

(** [product.sizes && product.sizes.length > 0] *)
Definition hasSizes (p : Item) : bool :=
  match sizes p with
  | Some (_ :: _) => true
  | _ => false
  end.

Definition setQuantity (q : Z) (item : CartItem) : CartItem :=
  mkCartItem (product item) q (selectedVariants item) (selectedSize item).

Definition setSelectedSize (s : option string) (item : CartItem) : CartItem :=
  mkCartItem (product item) (quantity item) (selectedVariants item) s.

(** ** The state updaters given to [setItems] *)

(** The predicate of the [findIndex] calls in [addItem] and [replaceItem]:
    the identity test, with the size-bearing flag of the product passed in. *)
Definition matchesProduct (p : Item) (size : option string) (item : CartItem) : bool :=
  if negb (String.eqb (id (product item)) (id p)) then false
  else if hasSizes p then strictEq (selectedSize item) size
  else true.

Definition addItem_updater (p : Item) (q : Z)
    (variants : option (list (string * string))) (size : option string)
    (prevItems : list CartItem) : list CartItem :=
  match findIndex (matchesProduct p size) prevItems with
  | Some existingItemIndex =>
      update_at existingItemIndex
        (fun item => setQuantity (quantity item + q) item) prevItems
  | None => prevItems ++ [mkCartItem p q variants size]
  end.

Definition removeItem_updater (productId : string)
    (prevItems : list CartItem) : list CartItem :=
  filter (fun item => negb (String.eqb (id (product item)) productId)) prevItems.

Definition updateQuantity_updater (productId : string) (q : Z)
    (prevItems : list CartItem) : list CartItem :=
  map (fun item =>
         if String.eqb (id (product item)) productId
         then setQuantity q item else item) prevItems.

(** The predicate of [prevItems.find] in [updateItemSize]. *)
Definition isTarget (productId : string) (size : string) (i : CartItem) : bool :=
  String.eqb (id (product i)) productId && strictEq (selectedSize i) (Some size).

(** The callback of [prevItems.map] in [updateItemSize]; [index] is the
    position of [item], which stands for its reference. *)
Definition resizeItem (productId : string) (size : string)
    (prevItems : list CartItem) (index : nat) (item : CartItem) : CartItem :=
  if String.eqb (id (product item)) productId then
    match findIndex (isTarget productId size) prevItems with
    | Some e =>
        match nth_error prevItems e with
        | Some existingItem =>
            if negb (Nat.eqb e index)
            then setQuantity (quantity existingItem + quantity item) existingItem
            else setSelectedSize (Some size) item
        | None => setSelectedSize (Some size) item
        end
    | None => setSelectedSize (Some size) item
    end
  else item.

(** The predicate of [self.findIndex] in the de-duplicating filter. *)
Definition sameProductAndSize (item i : CartItem) : bool :=
  String.eqb (id (product i)) (id (product item))
  && strictEq (selectedSize i) (selectedSize item).

(** [.filter((item, index, self) => index === self.findIndex(...))] *)
Definition keepFirstOccurrences (self : list CartItem) : list CartItem :=
  filteri (fun item index =>
             match findIndex (sameProductAndSize item) self with
             | Some k => Nat.eqb index k
             | None => false
             end) self.

Definition updateItemSize_updater (productId : string) (size : string)
    (prevItems : list CartItem) : list CartItem :=
  keepFirstOccurrences (mapi (resizeItem productId size prevItems) prevItems).

(** [oldItem?.quantity || 1] *)
Definition oldQuantityOf (oldItem : option CartItem) : Z :=
  match oldItem with
  | Some o => numOr (quantity o) 1
  | None => 1
  end.

(** [oldItem?.product.categoryIds?.some(catId =>
       newProduct.categoryIds?.includes(catId))] *)
Definition sharesCategory (oldItem : option CartItem) (newProduct : Item) : bool :=
  match oldItem with
  | Some o =>
      match categoryIds (product o) with
      | Some cats =>
          existsb (fun catId =>
                     match categoryIds newProduct with
                     | Some ncats => existsb (String.eqb catId) ncats
                     | None => false
                     end) cats
      | None => false
      end
  | None => false
  end.

Definition findOldItem (oldProductId : string) (prevItems : list CartItem)
    : option CartItem :=
  find (fun item => String.eqb (id (product item)) oldProductId) prevItems.

Definition sameCategoryReplacement (oldProductId : string) (newProduct : Item)
    (prevItems : list CartItem) : bool :=
  existsb (fun item =>
             String.eqb (id (product item)) (id newProduct)
             || sharesCategory (findOldItem oldProductId prevItems) newProduct)
          prevItems.

Definition replaceItem_updater (oldProductId : string) (newProduct : Item)
    (q : Z) (variants : option (list (string * string)))
    (size : option string) (prevItems : list CartItem) : list CartItem :=
  let oldItem := findOldItem oldProductId prevItems in
  let oldQuantity := oldQuantityOf oldItem in
  let sameCategory := sameCategoryReplacement oldProductId newProduct prevItems in
  let filteredItems := removeItem_updater oldProductId prevItems in
  match findIndex (matchesProduct newProduct size) filteredItems with
  | Some existingItemIndex =>
      update_at existingItemIndex
        (fun existing =>
           mkCartItem (product existing)
             (if sameCategory then Z.max (quantity existing) oldQuantity
              else quantity existing + numOr q 1)
             (objOr variants (selectedVariants existing))
             (strOr size (selectedSize existing)))
        filteredItems
  | None =>
      filteredItems ++
        [mkCartItem newProduct (if sameCategory then oldQuantity else numOr q 1)
           variants size]
  end.

(** [items.reduce((sum, item) => sum + item.quantity, 0)] *)
Definition itemCount (l : list CartItem) : Z :=
  fold_left (fun sum item => sum + quantity item) l 0.

(** ** The provider: component state, handlers, effect, exposed value *)

(** [items] and [directPurchaseItem] are the two [useState] cells,
    [storedCart] is the ['cart'] entry of [localStorage], and [itemsChanged]
    records that [setItems] installed a new array since the last commit, which
    is what the dependency list [[items]] of the effect tests. Every [setItems]
    call of the provider installs a freshly built array. *)
Record Provider : Type := mkProvider {
  items : list CartItem;
  directPurchaseItem : option CartItem;
  storedCart : option (list CartItem);
  itemsChanged : bool
}.

Definition setItems (f : list CartItem -> list CartItem) (st : Provider) : Provider :=
  mkProvider (f (items st)) (directPurchaseItem st) (storedCart st) true.

Definition setDirectPurchaseItemState (d : option CartItem) (st : Provider) : Provider :=
  mkProvider (items st) d (storedCart st) (itemsChanged st).

Definition localStorage_setItem (l : list CartItem) (st : Provider) : Provider :=
  mkProvider (items st) (directPurchaseItem st) (Some l) (itemsChanged st).

Definition localStorage_removeItem (st : Provider) : Provider :=
  mkProvider (items st) (directPurchaseItem st) None (itemsChanged st).

(** The effects of a commit have run. *)
Definition effectsDone (st : Provider) : Provider :=
  mkProvider (items st) (directPurchaseItem st) (storedCart st) false.

(** [localStorage.getItem('cart')]: the load of the persistence adapter. *)
Definition localStorage_getItem (st : Provider) : option (list CartItem) :=
  storedCart st.

(** [useEffect(() => localStorage.setItem('cart', JSON.stringify(items)),
    [items])], run when the render that follows a handler is committed. *)
Definition commitEffects (st : Provider) : Provider :=
  if itemsChanged st
  then effectsDone (localStorage_setItem (items st) st)
  else st.

(** The lazy initialiser of [items] followed by the first commit, on which
    every effect runs. [saved] is what [localStorage] holds at that time:
    [None] for no entry and for an entry that does not parse (it is logged
    and read as the empty cart), [Some l] for an entry that holds the cart
    array [l]. An entry that parses to something else than a cart array is
    returned unchecked by the initialiser and is outside this model. *)
Definition mount (saved : option (list CartItem)) : Provider :=
  commitEffects
    (mkProvider (match saved with Some l => l | None => [] end) None saved true).

(** *** Handlers, as the component body defines them *)

(** The requested quantity of [addItem] and [replaceItem]: the parameter
    default [quantity = 1] applies when the argument is omitted. *)
Definition requested (q : option Z) : Z :=
  match q with Some z => z | None => 1 end.

Definition addItem (p : Item) (q : option Z)
    (variants : option (list (string * string))) (size : option string)
    (st : Provider) : Provider :=
  setItems (addItem_updater p (requested q) variants size) st.

Definition removeItem (productId : string) (st : Provider) : Provider :=
  setItems (removeItem_updater productId) st.

Definition updateQuantity (productId : string) (q : Z) (st : Provider) : Provider :=
  if q <=? 0 then removeItem productId st
  else setItems (updateQuantity_updater productId q) st.

Definition updateItemSize (productId : string) (size : string)
    (st : Provider) : Provider :=
  setItems (updateItemSize_updater productId size) st.

Definition clearCart (st : Provider) : Provider :=
  localStorage_removeItem
    (setDirectPurchaseItemState None (setItems (fun _ => []) st)).

Definition clearDirectPurchase (st : Provider) : Provider :=
  setDirectPurchaseItemState None st.

Definition replaceItem (oldProductId : string) (newProduct : Item)
    (q : option Z) (variants : option (list (string * string)))
    (size : option string) (st : Provider) : Provider :=
  setItems
    (replaceItem_updater oldProductId newProduct (requested q) variants size) st.

(** The argument of the exposed [setDirectPurchaseItem]. *)
Record DirectPurchaseRequest : Type := mkDirectPurchaseRequest {
  dp_product : Item;
  dp_quantity : Z;
  dp_variantId : option string;
  dp_selectedSize : option string
}.

(** [item.variantId ? ... : ...]: [undefined] and the empty string are falsy. *)
Definition directPurchaseItemOf (r : DirectPurchaseRequest) : CartItem :=
  match dp_variantId r with
  | Some (String c v) =>
      mkCartItem (dp_product r) (dp_quantity r)
        (Some [("variant"%string, String c v)]) None
  | _ =>
      mkCartItem (dp_product r) (dp_quantity r) None (dp_selectedSize r)
  end.

(** *** The context value: what a consumer of [useCart] sees and calls *)

Definition noop (st : Provider) : Provider := st.

(** [directPurchaseItem ? () => {} : handler] *)
Definition gated (handler : Provider -> Provider) (st : Provider)
    : Provider -> Provider :=
  match directPurchaseItem st with
  | Some _ => noop
  | None => handler
  end.

(** One call of an exposed operation: the handler runs, React renders and
    commits, the effects of the commit run. *)
Definition dispatch (handler : Provider -> Provider) (st : Provider) : Provider :=
  commitEffects (handler st).

Definition value_items (st : Provider) : list CartItem :=
  match directPurchaseItem st with
  | Some d => [d]
  | None => items st
  end.

Definition value_itemCount (st : Provider) : Z :=
  match directPurchaseItem st with
  | Some d => quantity d
  | None => itemCount (items st)
  end.

Definition value_addItem (p : Item) (q : option Z)
    (variants : option (list (string * string))) (size : option string)
    (st : Provider) : Provider :=
  dispatch (gated (addItem p q variants size) st) st.

Definition value_removeItem (productId : string) (st : Provider) : Provider :=
  dispatch (gated (removeItem productId) st) st.

Definition value_updateQuantity (productId : string) (q : Z)
    (st : Provider) : Provider :=
  dispatch (gated (updateQuantity productId q) st) st.

Definition value_updateItemSize (productId : string) (size : string)
    (st : Provider) : Provider :=
  dispatch (gated (updateItemSize productId size) st) st.

Definition value_replaceItem (oldProductId : string) (newProduct : Item)
    (q : option Z) (variants : option (list (string * string)))
    (size : option string) (st : Provider) : Provider :=
  dispatch (gated (replaceItem oldProductId newProduct q variants size) st) st.

Definition value_clearCart (st : Provider) : Provider :=
  dispatch clearCart st.

Definition value_clearDirectPurchase (st : Provider) : Provider :=
  dispatch clearDirectPurchase st.

Definition value_setDirectPurchaseItem (r : DirectPurchaseRequest)
    (st : Provider) : Provider :=
  dispatch (setDirectPurchaseItemState (Some (directPurchaseItemOf r))) st.

(** The exposed operations as data, and the run of a sequence of calls. *)
Inductive Op : Type :=
| OpAddItem (p : Item) (q : option Z)
    (variants : option (list (string * string))) (size : option string)
| OpRemoveItem (productId : string)
| OpUpdateQuantity (productId : string) (q : Z)
| OpUpdateItemSize (productId : string) (size : string)
| OpReplaceItem (oldProductId : string) (newProduct : Item) (q : option Z)
    (variants : option (list (string * string))) (size : option string)
| OpClearCart
| OpClearDirectPurchase
| OpSetDirectPurchaseItem (r : DirectPurchaseRequest).

Definition call (st : Provider) (op : Op) : Provider :=
  match op with
  | OpAddItem p q v s => value_addItem p q v s st
  | OpRemoveItem pid => value_removeItem pid st
  | OpUpdateQuantity pid q => value_updateQuantity pid q st
  | OpUpdateItemSize pid s => value_updateItemSize pid s st
  | OpReplaceItem o n q v s => value_replaceItem o n q v s st
  | OpClearCart => value_clearCart st
  | OpClearDirectPurchase => value_clearDirectPurchase st
  | OpSetDirectPurchaseItem r => value_setDirectPurchaseItem r st
  end.

Definition run (ops : list Op) (st : Provider) : Provider :=
  fold_left call ops st.

(** The identity key of a line item: (product ID, selected size) when its
    product has a non-empty sizes list, the product ID alone otherwise. *)
Definition identityKey (item : CartItem) : string * option (option string) :=
  (id (product item),
   if hasSizes (product item) then Some (selectedSize item) else None).

(** The identity test of [addItem] and [replaceItem], as a proposition. *)
Definition SameIdentity (p : Item) (size : option string) (item : CartItem) : Prop :=
  id (product item) = id p /\ (hasSizes p = true -> selectedSize item = size).

(** [x] is the first element of [l] with property [P], at position [i]:
    what [findIndex] and [find] locate. *)
Definition FirstWith {A : Type} (P : A -> Prop) (l : list A) (i : nat) (x : A)
    : Prop :=
  nth_error l i = Some x /\ P x /\
  forall j y, (j < i)%nat -> nth_error l j = Some y -> ~ P y.

(** A call left the two state cells of the provider as they were. *)
Definition SameCells (st st' : Provider) : Prop :=
  items st' = items st /\ directPurchaseItem st' = directPurchaseItem st.

(** The category-ID lists of two products have an element in common. *)
Definition CategoriesIntersect (a b : Item) : Prop :=
  exists cats ncats c,
    categoryIds a = Some cats /\ categoryIds b = Some ncats /\
    In c cats /\ In c ncats.

(** The line items of one product. *)
Definition ofProduct (productId : string) (item : CartItem) : bool :=
  String.eqb (id (product item)) productId.

(** The pair the de-duplicating filter of [updateItemSize] compares. *)
Definition productSizeKey (item : CartItem) : string * option string :=
  (id (product item), selectedSize item).

(** The target of [updateItemSize]: a line item of that product and size. *)
Definition IsTarget (productId : string) (size : string) (item : CartItem) : Prop :=
  id (product item) = productId /\ selectedSize item = Some size.

(** The first occurrences of [l], by product ID and size, that have no
    occurrence in [seen]: the de-duplicating filter read from left to right. *)
Fixpoint firstsAfter (seen l : list CartItem) : list CartItem :=
  match l with
  | [] => []
  | x :: r =>
      if existsb (sameProductAndSize x) seen then firstsAfter (seen ++ [x]) r
      else x :: firstsAfter (seen ++ [x]) r
  end.

(** The cart has no two line items with the same identity key. *)
Definition UniqueIdentities (l : list CartItem) : Prop :=
  NoDup (map identityKey l).

(** The product records an exposed call hands to the provider. *)
Definition productsOfOp (op : Op) : list Item :=
  match op with
  | OpAddItem p _ _ _ => [p]
  | OpReplaceItem _ newProduct _ _ _ => [newProduct]
  | _ => []
  end.

Definition productsOf (ops : list Op) : list Item := flat_map productsOfOp ops.

(** Product records that carry the same ID agree on whether the product has
    sizes. *)
Definition SizesAgree (ps : list Item) : Prop :=
  forall p p', In p ps -> In p' ps -> id p = id p' -> hasSizes p = hasSizes p'.

(** The size-bearing flag a list of product records gives to a product ID. *)
Definition sizedIn (ps : list Item) (productId : string) : bool :=
  match find (fun p => String.eqb (id p) productId) ps with
  | Some p => hasSizes p
  | None => false
  end.

(** A line item whose product record has the size-bearing flag that [sized]
    gives to its ID. *)
Definition FlagFollows (sized : string -> bool) (item : CartItem) : Prop :=
  hasSizes (product item) = sized (id (product item)).

Definition WellKeyed (sized : string -> bool) (l : list CartItem) : Prop :=
  Forall (FlagFollows sized) l /\ UniqueIdentities l.

(** ** Sample data *)

Definition shirt : Item :=
  mkItem "shirt" (Some ["M"%string; "L"%string]) (Some ["apparel"%string]).
Definition mug : Item := mkItem "mug" None (Some ["kitchen"%string]).
Definition bowl : Item := mkItem "bowl" None (Some ["kitchen"%string]).

(** The record of the same shirt as a listing without size data carries it. *)
Definition shirtWithoutSizes : Item :=
  mkItem "shirt" None (Some ["apparel"%string]).


(** ** Notions for the properties of the remaining code *)

(** The provider between two calls: no effect is pending and the ['cart']
    entry holds the cart sequence. *)
Definition AtRest (st : Provider) : Prop :=
  itemsChanged st = false /\ storedCart st = Some (items st).

(** No two line items with the same product ID and selected size. *)
Definition UniqueProductSizes (l : list CartItem) : Prop :=
  NoDup (map productSizeKey l).

Definition isReplaceItem (op : Op) : bool :=
  match op with
  | OpReplaceItem _ _ _ _ _ => true
  | _ => false
  end.

(** Every line item has a positive quantity. *)
Definition AllPositive (l : list CartItem) : Prop :=
  Forall (fun item => 0 < quantity item) l.

(** A call that asks for no quantity below 1 in [addItem] and for no
    negative quantity in [replaceItem]. *)
Definition PositiveRequest (op : Op) : Prop :=
  match op with
  | OpAddItem _ q _ _ => 0 < requested q
  | OpReplaceItem _ _ q _ _ => 0 <= requested q
  | _ => True
  end.

(** The quantity [replaceItem] captures from the old line item. *)
Definition capturedQuantity (old : CartItem) : Z :=
  if quantity old =? 0 then 1 else quantity old.

(** ** Sanity checks on sample data *)

Example sample_add_twice :
  items (run [OpAddItem mug (Some 2) None None; OpAddItem mug (Some 3) None None]
             (mount None))
  = [mkCartItem mug 5 None None].
Proof. reflexivity. Qed.

Example sample_resize_target_first :
  updateItemSize_updater "shirt" "M"
    [mkCartItem shirt 4 None (Some "M"%string);
     mkCartItem shirt 1 None (Some "S"%string)]
  = [mkCartItem shirt 4 None (Some "M"%string)].
Proof. reflexivity. Qed.

Example sample_resize_target_last :
  updateItemSize_updater "shirt" "M"
    [mkCartItem shirt 1 None (Some "S"%string);
     mkCartItem shirt 4 None (Some "M"%string)]
  = [mkCartItem shirt 5 None (Some "M"%string)].
Proof. reflexivity. Qed.

(** ** Array helper facts *)

Section ArrayFacts.
Context {A : Type}.
Implicit Types (p : A -> bool) (l : list A).

Lemma findIndex_None p l :
  findIndex p l = None <-> (forall x, In x l -> p x = false).
Proof.
  induction l as [|a r IH]; simpl.
  - split; [intros _ x []|reflexivity].
  - destruct (p a) eqn:Ea.
    + split; [discriminate|]. intros H. rewrite (H a) in Ea by auto. discriminate.
    + destruct (findIndex p r) eqn:Er.
      * split; [discriminate|]. intros H.
        assert (Hn : Some n = None); [|discriminate].
        apply IH. intros x Hx. apply H. auto.
      * split; [|reflexivity]. intros _ x [<-|Hx]; [assumption|].
        apply (proj1 IH); auto.
Qed.

Lemma findIndex_Some p l i :
  findIndex p l = Some i <->
  exists x, nth_error l i = Some x /\ p x = true /\
            forall j y, (j < i)%nat -> nth_error l j = Some y -> p y = false.
Proof.
  revert i. induction l as [|a r IH]; intros i; simpl.
  - split; [discriminate|]. intros (x & Hx & _). destruct i; discriminate.
  - destruct (p a) eqn:Ea.
    + split.
      * intros [= <-]. exists a. repeat split; auto. intros j y Hj. lia.
      * intros (x & Hx & Hp & Hfirst). destruct i as [|i]; [reflexivity|].
        rewrite (Hfirst 0%nat a) in Ea by (simpl; auto; lia). discriminate.
    + destruct (findIndex p r) as [k|] eqn:Er.
      * split.
        -- intros [= <-]. destruct (proj1 (IH k) eq_refl) as (x & Hx & Hp & Hf).
           exists x. repeat split; auto.
           intros [|j] y Hj Hy; simpl in Hy.
           ++ injection Hy as <-. assumption.
           ++ apply (Hf j); [lia|assumption].
        -- intros (x & Hx & Hp & Hf). destruct i as [|i]; simpl in Hx.
           ++ injection Hx as <-. congruence.
           ++ f_equal. assert (Hi : Some k = Some i); [|congruence].
              apply IH. exists x. repeat split; auto.
              intros j y Hj Hy. apply (Hf (S j)); [lia|assumption].
      * split; [discriminate|]. intros (x & Hx & Hp & Hf).
        destruct i as [|i]; simpl in Hx.
        -- injection Hx as <-. congruence.
        -- assert (Hn : @None nat = Some i); [|discriminate].
           apply IH. exists x. repeat split; auto.
           intros j y Hj Hy. apply (Hf (S j)); [lia|assumption].
Qed.

Lemma findIndex_Some_nth p l i :
  findIndex p l = Some i -> exists x, nth_error l i = Some x /\ p x = true.
Proof.
  intros H. apply findIndex_Some in H. destruct H as (x & Hx & Hp & _). eauto.
Qed.

Lemma update_at_length i (f : A -> A) l : List.length (update_at i f l) = List.length l.
Proof.
  revert i. induction l as [|a r IH]; intros [|i]; simpl; auto.
Qed.

Lemma update_at_nth_same i (f : A -> A) l x :
  nth_error l i = Some x -> nth_error (update_at i f l) i = Some (f x).
Proof.
  revert i. induction l as [|a r IH]; intros [|i]; simpl; try discriminate.
  - intros [= ->]. reflexivity.
  - apply IH.
Qed.

Lemma update_at_nth_other i j (f : A -> A) l :
  j <> i -> nth_error (update_at i f l) j = nth_error l j.
Proof.
  revert i j. induction l as [|a r IH]; intros [|i] [|j] Hne; simpl; auto;
    try congruence.
Qed.

Lemma update_at_map {B : Type} (g : A -> B) i (f : A -> A) l :
  (forall x, g (f x) = g x) -> map g (update_at i f l) = map g l.
Proof.
  intros Hg. revert i. induction l as [|a r IH]; intros [|i]; simpl; auto.
  - now rewrite Hg.
  - now rewrite IH.
Qed.

End ArrayFacts.

(** ** Reflection of the predicates *)

Lemma strictEq_true a b : strictEq a b = true <-> a = b.
Proof.
  destruct a as [x|], b as [y|]; simpl; try (split; congruence).
  rewrite String.eqb_eq. split; congruence.
Qed.


Lemma matchesProduct_true p size item :
  matchesProduct p size item = true <-> SameIdentity p size item.
Proof.
  unfold matchesProduct, SameIdentity.
  destruct (String.eqb (id (product item)) (id p)) eqn:E; simpl.
  - apply String.eqb_eq in E. destruct (hasSizes p).
    + rewrite strictEq_true. tauto.
    + split; [intros _; split; [assumption|discriminate]|reflexivity].
  - apply String.eqb_neq in E. split; [discriminate|tauto].
Qed.

Lemma matchesProduct_false p size item :
  matchesProduct p size item = false <-> ~ SameIdentity p size item.
Proof.
  rewrite <- matchesProduct_true. destruct (matchesProduct p size item); split;
    congruence.
Qed.


Lemma items_setItems f st : items (setItems f st) = f (items st).
Proof. reflexivity. Qed.

Lemma findIndex_FirstWith {A : Type} (p : A -> bool) (P : A -> Prop)
    (l : list A) (i : nat) :
  (forall x, p x = true <-> P x) ->
  findIndex p l = Some i <-> exists x, FirstWith P l i x.
Proof.
  intros Hr. rewrite findIndex_Some. unfold FirstWith.
  split; intros (x & Hx & Hp & Hf); exists x; repeat split; auto.
  - now apply Hr.
  - intros j y Hj Hy HP. apply Hr in HP. rewrite (Hf j y Hj Hy) in HP.
    discriminate.
  - now apply Hr.
  - intros j y Hj Hy. destruct (p y) eqn:E; [|reflexivity].
    apply Hr in E. now destruct (Hf j y Hj Hy).
Qed.

Lemma findIndex_matchesProduct p size l i :
  findIndex (matchesProduct p size) l = Some i <->
  exists x, FirstWith (SameIdentity p size) l i x.
Proof. apply findIndex_FirstWith. intros x. apply matchesProduct_true. Qed.

Lemma findIndex_matchesProduct_None p size l :
  findIndex (matchesProduct p size) l = None <->
  forall x, In x l -> ~ SameIdentity p size x.
Proof.
  rewrite findIndex_None. split; intros H x Hx.
  - apply matchesProduct_false. auto.
  - apply matchesProduct_false. auto.
Qed.

Lemma removeItem_updater_In pid l it :
  In it (removeItem_updater pid l) <-> In it l /\ id (product it) <> pid.
Proof.
  unfold removeItem_updater. rewrite filter_In, negb_true_iff, String.eqb_neq.
  tauto.
Qed.

(** ** updateQuantity *)

(** C7. [updateQuantity productId q]: for [q <= 0] every line item whose
    product ID is [productId] is removed, whatever its size, and the others
    stay in order; for [q > 0] every line item whose product ID is
    [productId] gets the quantity [q] (overwritten, not added), its other
    fields and all other line items staying as they were. *)
Theorem updateQuantity_removes_or_overwrites (productId : string) (q : Z)
    (st : Provider) :
  (q <= 0 ->
     items (updateQuantity productId q st)
     = filter (fun it => negb (String.eqb (id (product it)) productId)) (items st)
     /\ forall it, In it (items (updateQuantity productId q st)) <->
                   In it (items st) /\ id (product it) <> productId)
  /\
  (0 < q ->
     List.length (items (updateQuantity productId q st)) = List.length (items st)
     /\ forall i it, nth_error (items st) i = Some it ->
          nth_error (items (updateQuantity productId q st)) i
          = Some (if String.eqb (id (product it)) productId
                  then mkCartItem (product it) q (selectedVariants it)
                         (selectedSize it)
                  else it)).
Proof.
  unfold updateQuantity. split; intros Hq.
  - apply Z.leb_le in Hq. rewrite Hq. simpl. split; [reflexivity|].
    intros it. apply removeItem_updater_In.
  - apply Z.leb_gt in Hq. rewrite Hq. simpl. unfold updateQuantity_updater.
    split; [apply length_map|].
    intros i it Hit. rewrite nth_error_map, Hit. reflexivity.
Qed.

Lemma updateQuantity_removes_or_overwrites_witness :
  let st := mkProvider
              [mkCartItem shirt 1 None (Some "M"%string);
               mkCartItem mug 2 None None;
               mkCartItem shirt 3 None (Some "L"%string)] None None false in
  items (updateQuantity "shirt" 0 st) = [mkCartItem mug 2 None None]
  /\ nth_error (items (updateQuantity "shirt" 7 st)) 2
     = Some (mkCartItem shirt 7 None (Some "L"%string)).
Proof.
  intros st. split.
  - rewrite (proj1 (proj1 (updateQuantity_removes_or_overwrites "shirt" 0 st)
                      ltac:(lia))).
    reflexivity.
  - rewrite (proj2 (proj2 (updateQuantity_removes_or_overwrites "shirt" 7 st)
                      ltac:(lia)) 2%nat _ eq_refl).
    reflexivity.
Defined.

(** ** addItem *)

Lemma addItem_updater_existing p q variants size prev i ex :
  FirstWith (SameIdentity p size) prev i ex ->
  addItem_updater p q variants size prev
  = update_at i (fun item => setQuantity (quantity item + q) item) prev.
Proof.
  intros H. unfold addItem_updater.
  now rewrite (proj2 (findIndex_matchesProduct p size prev i) (ex_intro _ ex H)).
Qed.

Lemma addItem_updater_new p q variants size prev :
  (forall it, In it prev -> ~ SameIdentity p size it) ->
  addItem_updater p q variants size prev = prev ++ [mkCartItem p q variants size].
Proof.
  intros H. unfold addItem_updater.
  now rewrite (proj2 (findIndex_matchesProduct_None p size prev) H).
Qed.

(** C8. [addItem product q variants size]: when a line item with the same
    identity key exists, the first such item gets [q] added to its quantity
    and keeps its product, variants and size, the other line items being
    untouched; otherwise a line item with the given fields is appended. In
    particular [addItem P 2] then [addItem P 3], for a product without sizes
    that the cart does not hold, leaves exactly one line item for [P], of
    quantity 5. *)
Theorem addItem_merges_or_appends (p : Item) (q : option Z)
    (variants : option (list (string * string))) (size : option string)
    (st : Provider) :
  (forall i ex, FirstWith (SameIdentity p size) (items st) i ex ->
     List.length (items (addItem p q variants size st)) = List.length (items st)
     /\ nth_error (items (addItem p q variants size st)) i
        = Some (mkCartItem (product ex) (quantity ex + requested q)
                  (selectedVariants ex) (selectedSize ex))
     /\ forall j, j <> i ->
          nth_error (items (addItem p q variants size st)) j
          = nth_error (items st) j)
  /\
  ((forall it, In it (items st) -> ~ SameIdentity p size it) ->
     items (addItem p q variants size st)
     = items st ++ [mkCartItem p (requested q) variants size])
  /\
  (hasSizes p = false ->
   (forall it, In it (items st) -> id (product it) <> id p) ->
   forall variants' size',
     items (addItem p (Some 3) variants' size'
              (addItem p (Some 2) variants size st))
     = items st ++ [mkCartItem p 5 variants size]).
Proof.
  split; [|split].
  - intros i ex H. unfold addItem. rewrite items_setItems.
    rewrite (addItem_updater_existing _ _ _ _ _ _ _ H).
    destruct H as (Hnth & _). split; [apply update_at_length|]. split.
    + rewrite (update_at_nth_same _ _ _ _ Hnth). reflexivity.
    + intros j Hj. now apply update_at_nth_other.
  - intros H. unfold addItem. rewrite items_setItems.
    now apply addItem_updater_new.
  - intros Hs Hnone variants' size'. unfold addItem. rewrite !items_setItems.
    simpl requested.
    rewrite (addItem_updater_new p 2 variants size (items st)).
    2:{ intros it Hit [Hid _]. now apply (Hnone it). }
    assert (Hfirst : FirstWith (SameIdentity p size')
                       (items st ++ [mkCartItem p 2 variants size])
                       (List.length (items st)) (mkCartItem p 2 variants size)).
    { unfold FirstWith. split; [|split].
      - rewrite nth_error_app2 by lia. now rewrite Nat.sub_diag.
      - split; [reflexivity|]. rewrite Hs. discriminate.
      - intros j y Hj Hy [Hid _]. rewrite nth_error_app1 in Hy by assumption.
        apply nth_error_In in Hy. now apply (Hnone y). }
    rewrite (addItem_updater_existing _ _ _ _ _ _ _ Hfirst).
    clear. induction (items st) as [|a r IH]; simpl; [reflexivity|].
    now rewrite IH.
Qed.

Lemma addItem_merges_or_appends_witness :
  items (addItem mug (Some 3) None None
           (addItem mug (Some 2) None None (mount None)))
  = [mkCartItem mug 5 None None].
Proof.
  apply (proj2 (proj2 (addItem_merges_or_appends mug (Some 2) None None
                         (mount None)))).
  - reflexivity.
  - intros it [].
Defined.

(** C9. [addItem] lets a non-positive quantity through: outside
    direct-purchase mode, [addItem P (-1)] on the empty cart leaves a line item
    of quantity [-1] and an item count of [-1], and [addItem P 0] leaves an
    item count of [0]. *)
Theorem addItem_accepts_nonpositive_quantity :
  directPurchaseItem (mount None) = None
  /\ value_items (value_addItem mug (Some (-1)) None None (mount None))
     = [mkCartItem mug (-1) None None]
  /\ (exists it,
        In it (value_items (value_addItem mug (Some (-1)) None None (mount None)))
        /\ quantity it <= 0)
  /\ value_itemCount (value_addItem mug (Some (-1)) None None (mount None)) = -1
  /\ value_itemCount (value_addItem mug (Some 0) None None (mount None)) = 0.
Proof.
  repeat split.
  exists (mkCartItem mug (-1) None None). split; [left; reflexivity|simpl; lia].
Qed.

(** ** Persistence *)

Lemma value_clearCart_state st :
  value_clearCart st = mkProvider [] None (Some []) false.
Proof. reflexivity. Qed.

(** C1 (the code departs from the specification). The handler [clearCart]
    removes the persisted record, but it also installs a new empty array, so
    the persistence effect of the commit that follows writes the empty
    sequence back: once [clearCart] and its side effects are complete the
    record is present and holds the empty sequence, and a load returns it
    instead of "no prior state". *)
Theorem clearCart_leaves_empty_sequence_persisted :
  let st := run [OpAddItem mug (Some 2) None None] (mount None) in
  localStorage_getItem st = Some [mkCartItem mug 2 None None]
  /\ localStorage_getItem (clearCart st) = None
  /\ localStorage_getItem (value_clearCart st) = Some []
  /\ items (mount (localStorage_getItem (value_clearCart st))) = []
  /\ forall st', localStorage_getItem (value_clearCart st') = Some [].
Proof.
  repeat split.
Qed.

(** ** Direct-purchase mode *)

(** C3. While a direct-purchase item [d] is set, the exposed [addItem],
    [removeItem], [updateQuantity], [updateItemSize] and [replaceItem] leave
    the cart sequence (and [d]) as they are, the exposed item list is [[d]]
    and the exposed item count is the quantity of [d], whatever the cart
    holds; the cart shows up unchanged after [clearDirectPurchase]; and
    [clearCart], [clearDirectPurchase] and [setDirectPurchaseItem] still
    act. *)
Theorem direct_purchase_override (st : Provider) (d : CartItem) :
  directPurchaseItem st = Some d ->
  (forall p q v s, SameCells st (value_addItem p q v s st))
  /\ (forall pid, SameCells st (value_removeItem pid st))
  /\ (forall pid q, SameCells st (value_updateQuantity pid q st))
  /\ (forall pid s, SameCells st (value_updateItemSize pid s st))
  /\ (forall o n q v s, SameCells st (value_replaceItem o n q v s st))
  /\ value_items st = [d]
  /\ value_itemCount st = quantity d
  /\ (forall p q v s,
        value_items (value_clearDirectPurchase (value_addItem p q v s st))
        = items st)
  /\ (items (value_clearCart st) = []
      /\ directPurchaseItem (value_clearCart st) = None)
  /\ (items (value_clearDirectPurchase st) = items st
      /\ directPurchaseItem (value_clearDirectPurchase st) = None)
  /\ (forall r, items (value_setDirectPurchaseItem r st) = items st
                /\ directPurchaseItem (value_setDirectPurchaseItem r st)
                   = Some (directPurchaseItemOf r)).
Proof.
  intros Hd.
  assert (Hnoop : forall h, SameCells st (dispatch (gated h st) st)).
  { intros h. unfold gated, dispatch, noop, commitEffects, SameCells.
    rewrite Hd. destruct (itemsChanged st); simpl; auto. }
  repeat match goal with |- _ /\ _ => split end;
    try (intros; apply Hnoop).
  - unfold value_items. now rewrite Hd.
  - unfold value_itemCount. now rewrite Hd.
  - intros p q v s. unfold value_addItem.
    destruct (Hnoop (addItem p q v s)) as [Hi _].
    unfold value_clearDirectPurchase, dispatch, clearDirectPurchase,
      setDirectPurchaseItemState, commitEffects, value_items.
    destruct (itemsChanged _); simpl; exact Hi.
  - reflexivity.
  - reflexivity.
  - unfold value_clearDirectPurchase, dispatch, clearDirectPurchase,
      setDirectPurchaseItemState, commitEffects.
    destruct (itemsChanged _); reflexivity.
  - unfold value_clearDirectPurchase, dispatch, clearDirectPurchase,
      setDirectPurchaseItemState, commitEffects. simpl.
    destruct (itemsChanged _); reflexivity.
  - intros r. unfold value_setDirectPurchaseItem, dispatch,
      setDirectPurchaseItemState, commitEffects. simpl.
    destruct (itemsChanged _); split; reflexivity.
Qed.

Lemma direct_purchase_override_witness :
  let st := value_setDirectPurchaseItem
              (mkDirectPurchaseRequest shirt 4 None (Some "L"%string))
              (run [OpAddItem mug (Some 2) None None] (mount None)) in
  items (value_addItem bowl (Some 1) None None st) = [mkCartItem mug 2 None None]
  /\ value_itemCount st = 4.
Proof.
  intros st.
  pose proof (direct_purchase_override st
                (mkCartItem shirt 4 None (Some "L"%string)) eq_refl) as H.
  destruct H as (Hadd & _ & _ & _ & _ & _ & Hcount & _).
  split.
  - exact (proj1 (Hadd bowl (Some 1) None None)).
  - exact Hcount.
Defined.

(** ** replaceItem *)

Lemma findOldItem_Some oldProductId l x :
  findOldItem oldProductId l = Some x ->
  In x l /\ id (product x) = oldProductId.
Proof.
  intros H. apply find_some in H. now rewrite String.eqb_eq in H.
Qed.

Lemma findOldItem_absent oldProductId l :
  (forall it, In it l -> id (product it) <> oldProductId) ->
  findOldItem oldProductId l = None.
Proof.
  intros H. destruct (findOldItem oldProductId l) as [x|] eqn:E; [|reflexivity].
  apply findOldItem_Some in E. destruct E as [Hin Hid]. now destruct (H x Hin).
Qed.

Lemma removeItem_updater_absent productId l :
  (forall it, In it l -> id (product it) <> productId) ->
  removeItem_updater productId l = l.
Proof.
  intros H. unfold removeItem_updater. induction l as [|a r IH]; simpl; auto.
  assert (Ha : String.eqb (id (product a)) productId = false)
    by (apply String.eqb_neq, H; simpl; auto).
  rewrite Ha. simpl. f_equal. apply IH. intros it Hit. apply H. simpl; auto.
Qed.

Lemma sharesCategory_true old newProduct :
  sharesCategory (Some old) newProduct = true <->
  CategoriesIntersect (product old) newProduct.
Proof.
  unfold sharesCategory, CategoriesIntersect.
  destruct (categoryIds (product old)) as [cats|].
  - rewrite existsb_exists. split.
    + intros (c & Hc & Hn). destruct (categoryIds newProduct) as [ncats|];
        [|discriminate].
      apply existsb_exists in Hn. destruct Hn as (c' & Hc' & E).
      apply String.eqb_eq in E. subst c'. exists cats, ncats, c. auto.
    + intros (cats' & ncats & c & [= <-] & Hn & Hc & Hc').
      exists c. split; [assumption|]. rewrite Hn. apply existsb_exists.
      exists c. split; [assumption|apply String.eqb_refl].
  - split; [discriminate|]. intros (cats & ncats & c & H & _). discriminate.
Qed.

Lemma sameCategoryReplacement_true oldProductId newProduct prevItems :
  sameCategoryReplacement oldProductId newProduct prevItems = true <->
  (exists it, In it prevItems /\ id (product it) = id newProduct)
  \/ (prevItems <> [] /\
      sharesCategory (findOldItem oldProductId prevItems) newProduct = true).
Proof.
  unfold sameCategoryReplacement. rewrite existsb_exists. split.
  - intros (it & Hin & H). apply orb_true_iff in H. destruct H as [H|H].
    + left. exists it. now rewrite String.eqb_eq in H.
    + right. split; [|assumption]. intros ->. destruct Hin.
  - intros [(it & Hin & H)|(Hne & H)].
    + exists it. split; [assumption|]. apply orb_true_iff. left.
      now apply String.eqb_eq.
    + destruct prevItems as [|a r]; [congruence|]. exists a.
      split; [simpl; auto|]. apply orb_true_iff. now right.
Qed.

(** Whenever the new product is found in the filtered cart, the replacement
    counts as same-category: the summing branch of [replaceItem] is never
    taken. *)
Lemma sameCategoryReplacement_when_found oldProductId newProduct size prevItems i ex :
  FirstWith (SameIdentity newProduct size)
    (removeItem_updater oldProductId prevItems) i ex ->
  sameCategoryReplacement oldProductId newProduct prevItems = true.
Proof.
  intros (Hnth & [Hid _] & _). apply sameCategoryReplacement_true. left.
  exists ex. split; [|assumption].
  apply nth_error_In in Hnth. now apply removeItem_updater_In in Hnth.
Qed.

Lemma replaceItem_updater_found oldProductId newProduct q variants size prev i ex :
  FirstWith (SameIdentity newProduct size)
    (removeItem_updater oldProductId prev) i ex ->
  replaceItem_updater oldProductId newProduct q variants size prev
  = update_at i
      (fun existing =>
         mkCartItem (product existing)
           (if sameCategoryReplacement oldProductId newProduct prev
            then Z.max (quantity existing)
                   (oldQuantityOf (findOldItem oldProductId prev))
            else quantity existing + numOr q 1)
           (objOr variants (selectedVariants existing))
           (strOr size (selectedSize existing)))
      (removeItem_updater oldProductId prev).
Proof.
  intros H. unfold replaceItem_updater. cbv zeta.
  now rewrite (proj2 (findIndex_matchesProduct _ _ _ i) (ex_intro _ ex H)).
Qed.

Lemma replaceItem_updater_unmatched oldProductId newProduct q variants size prev :
  (forall it, In it (removeItem_updater oldProductId prev) ->
              ~ SameIdentity newProduct size it) ->
  replaceItem_updater oldProductId newProduct q variants size prev
  = removeItem_updater oldProductId prev ++
    [mkCartItem newProduct
       (if sameCategoryReplacement oldProductId newProduct prev
        then oldQuantityOf (findOldItem oldProductId prev) else numOr q 1)
       variants size].
Proof.
  intros H. unfold replaceItem_updater. cbv zeta.
  now rewrite (proj2 (findIndex_matchesProduct_None _ _ _) H).
Qed.



(** C5, as the code has it. [replaceItem] when, once the old item is
    removed, a line item matches the identity of the new product: that line
    item (the first match) keeps its product and position and the other line
    items stay. Its quantity is max(existing quantity, old item's quantity)
    for a same-category replacement, where an old quantity of 0 (like a
    missing old item) counts as 1, and existing quantity + requested
    quantity otherwise, a request of 0 counting as 1; the replacement is in
    fact always same-category here. Its variants are the [variants] argument
    when given and the existing ones when not; its size is the [size]
    argument when given and not empty, and the existing one when not
    given. *)
Theorem replaceItem_merges_into_existing (oldProductId : string)
    (newProduct : Item) (q : option Z)
    (variants : option (list (string * string))) (size : option string)
    (st : Provider) (i : nat) (ex : CartItem) :
  FirstWith (SameIdentity newProduct size)
    (removeItem_updater oldProductId (items st)) i ex ->
  let result := items (replaceItem oldProductId newProduct q variants size st) in
  let oldQuantity :=
    match findOldItem oldProductId (items st) with
    | Some old => if quantity old =? 0 then 1 else quantity old
    | None => 1
    end in
  let sameCategory :=
    sameCategoryReplacement oldProductId newProduct (items st) in
  List.length result = List.length (removeItem_updater oldProductId (items st))
  /\ (forall j, j <> i ->
        nth_error result j
        = nth_error (removeItem_updater oldProductId (items st)) j)
  /\ sameCategory = true
  /\ exists r,
       nth_error result i = Some r
       /\ product r = product ex
       /\ (sameCategory = true -> quantity r = Z.max (quantity ex) oldQuantity)
       /\ (sameCategory = false ->
           quantity r
           = quantity ex + (if requested q =? 0 then 1 else requested q))
       /\ (variants = None -> selectedVariants r = selectedVariants ex)
       /\ (forall v, variants = Some v -> selectedVariants r = Some v)
       /\ (size = None \/ size = Some EmptyString ->
           selectedSize r = selectedSize ex)
       /\ (forall s, size = Some s -> s <> EmptyString ->
                     selectedSize r = Some s).
Proof.
  intros Hfirst result oldQuantity sameCategory.
  subst result oldQuantity sameCategory. unfold replaceItem.
  rewrite items_setItems, (replaceItem_updater_found _ _ _ _ _ _ _ _ Hfirst).
  pose proof (sameCategoryReplacement_when_found _ _ _ _ _ _ Hfirst) as Hsame.
  destruct Hfirst as (Hnth & _). split; [apply update_at_length|]. split.
  - intros j Hj. now apply update_at_nth_other.
  - split; [exact Hsame|].
    eexists. split; [apply (update_at_nth_same _ _ _ _ Hnth)|]. simpl.
    split; [reflexivity|]. split; [intros ->; reflexivity|].
    split; [intros ->; reflexivity|].
    split; [intros ->; reflexivity|]. split; [intros v ->; reflexivity|].
    split; [intros [->| ->]; reflexivity|].
    intros s -> Hs. destruct s; [congruence|reflexivity].
Qed.

Lemma replaceItem_merges_into_existing_witness :
  let st := mkProvider [mkCartItem mug 3 None None; mkCartItem bowl 1 None None]
              None None false in
  exists r,
    nth_error (items (replaceItem "mug" bowl (Some 2) None None st)) 0 = Some r
    /\ quantity r = 3.
Proof.
  intros st.
  destruct (replaceItem_merges_into_existing "mug" bowl (Some 2) None None st
              0 (mkCartItem bowl 1 None None))
    as (_ & _ & Hsame & r & Hr & _ & Hmax & _).
  - split; [reflexivity|]. split; [split; [reflexivity|discriminate]|].
    intros j y Hj. inversion Hj.
  - exists r. split; [exact Hr|]. now rewrite (Hmax Hsame).
Defined.

(** C5, as the specification states it, fails on an old line item of quantity
    0: [0 || 1] is 1, so the quantity becomes max(0, 1) = 1 and not max(0, 0). *)
Lemma replaceItem_old_quantity_zero_counts_as_one :
  let st := run [OpAddItem mug (Some 0) None None;
                 OpAddItem bowl (Some 0) None None] (mount None) in
  items st = [mkCartItem mug 0 None None; mkCartItem bowl 0 None None]
  /\ findOldItem "mug" (items st) = Some (mkCartItem mug 0 None None)
  /\ sameCategoryReplacement "mug" bowl (items st) = true
  /\ items (replaceItem "mug" bowl None None None st)
     = [mkCartItem bowl 1 None None]
  /\ items (replaceItem "mug" bowl None None None st)
     <> [mkCartItem bowl (Z.max 0 0) None None].
Proof.
  repeat split. discriminate.
Qed.

(** C6, as the code has it. [replaceItem] when, once the old item is
    removed, no line item matches the identity of the new product: a line
    item for the new product with the given variants and size is appended;
    its quantity is the old item's quantity for a same-category replacement,
    in particular when the old item and the new product have a category in
    common, where an old quantity of 0 counts as 1, and the requested
    quantity otherwise, 1 when it is omitted or 0. *)
Theorem replaceItem_appends_when_unmatched (oldProductId : string)
    (newProduct : Item) (q : option Z)
    (variants : option (list (string * string))) (size : option string)
    (st : Provider) :
  (forall it, In it (removeItem_updater oldProductId (items st)) ->
              ~ SameIdentity newProduct size it) ->
  let oldQuantity :=
    match findOldItem oldProductId (items st) with
    | Some old => if quantity old =? 0 then 1 else quantity old
    | None => 1
    end in
  let sameCategory :=
    sameCategoryReplacement oldProductId newProduct (items st) in
  items (replaceItem oldProductId newProduct q variants size st)
  = removeItem_updater oldProductId (items st)
    ++ [mkCartItem newProduct
          (if sameCategory then oldQuantity
           else if requested q =? 0 then 1 else requested q)
          variants size]
  /\ (forall old, findOldItem oldProductId (items st) = Some old ->
                  CategoriesIntersect (product old) newProduct ->
                  sameCategory = true)
  /\ (forall old, findOldItem oldProductId (items st) = Some old ->
                  quantity old <> 0 -> oldQuantity = quantity old).
Proof.
  intros Hnone oldQuantity sameCategory. subst oldQuantity sameCategory.
  unfold replaceItem. rewrite items_setItems.
  rewrite (replaceItem_updater_unmatched _ _ _ _ _ _ Hnone).
  split; [reflexivity|]. split.
  - intros old Hold Hcat. apply sameCategoryReplacement_true. right. split.
    + intros E. rewrite E in Hold. discriminate.
    + rewrite Hold. now apply sharesCategory_true.
  - intros old -> Hq. apply Z.eqb_neq in Hq. now rewrite Hq.
Qed.

Lemma replaceItem_appends_when_unmatched_witness :
  items (replaceItem "mug" bowl None None None
           (mkProvider [mkCartItem mug 3 None None] None None false))
  = [mkCartItem bowl 3 None None].
Proof.
  destruct (replaceItem_appends_when_unmatched "mug" bowl None None None
              (mkProvider [mkCartItem mug 3 None None] None None false))
    as (Heq & _ & _).
  - intros it [].
  - rewrite Heq. reflexivity.
Defined.

(** C6, as the specification states it, fails on an old line item of quantity
    0 replaced within its category: the appended line item gets quantity 1,
    not the old quantity. *)
Lemma replaceItem_appends_one_for_old_quantity_zero :
  let st := run [OpAddItem mug (Some 0) None None] (mount None) in
  items st = [mkCartItem mug 0 None None]
  /\ CategoriesIntersect mug bowl
  /\ sameCategoryReplacement "mug" bowl (items st) = true
  /\ items (replaceItem "mug" bowl None None None st)
     = [mkCartItem bowl 1 None None]
  /\ items (replaceItem "mug" bowl None None None st)
     <> [mkCartItem bowl 0 None None].
Proof.
  split; [reflexivity|]. split.
  - exists ["kitchen"%string], ["kitchen"%string], "kitchen"%string.
    simpl. auto.
  - repeat split. discriminate.
Qed.

(** The cross-category example of the specification: a new product of
    another category, not in the cart, gets the requested quantity. *)
Example replaceItem_cross_category :
  items (replaceItem "shirt" mug (Some 2) None None
           (mkProvider [mkCartItem shirt 3 None (Some "M"%string)]
              None None false))
  = [mkCartItem mug 2 None None].
Proof. reflexivity. Qed.

(** C10, as the code has it. [replaceItem] with an old product ID that no
    line item carries is not a no-op: the captured old quantity is the
    default 1, and the new product is inserted or merged. On a cart without
    the new product the replacement is never same-category and a line item
    for the new product is appended with the requested quantity, 1 when it
    is omitted or 0, so the cart grows; on a cart where a line item matches
    the new product, that line item gets the quantity
    max(existing quantity, 1) and the variants and size of the call, where
    given. *)
Theorem replaceItem_absent_old_still_inserts (absentId : string) (newProduct : Item)
    (q : option Z) (variants : option (list (string * string)))
    (size : option string) (st : Provider) :
  (forall it, In it (items st) -> id (product it) <> absentId) ->
  oldQuantityOf (findOldItem absentId (items st)) = 1
  /\ ((forall it, In it (items st) -> id (product it) <> id newProduct) ->
      sameCategoryReplacement absentId newProduct (items st) = false
      /\ items (replaceItem absentId newProduct q variants size st)
         = items st
           ++ [mkCartItem newProduct
                 (if requested q =? 0 then 1 else requested q) variants size]
      /\ items (replaceItem absentId newProduct q variants size st) <> items st)
  /\ (forall i ex, FirstWith (SameIdentity newProduct size) (items st) i ex ->
        nth_error (items (replaceItem absentId newProduct q variants size st)) i
        = Some (mkCartItem (product ex) (Z.max (quantity ex) 1)
                  (objOr variants (selectedVariants ex))
                  (strOr size (selectedSize ex)))).
Proof.
  intros Habsent.
  pose proof (findOldItem_absent _ _ Habsent) as Hold.
  pose proof (removeItem_updater_absent _ _ Habsent) as Hfil.
  split; [now rewrite Hold|]. split.
  - intros Hnew.
    assert (Hsame : sameCategoryReplacement absentId newProduct (items st) = false).
    { destruct (sameCategoryReplacement absentId newProduct (items st)) eqn:E;
        [|reflexivity].
      apply sameCategoryReplacement_true in E.
      destruct E as [(it & Hin & Hid)|(_ & H)].
      - now destruct (Hnew it Hin).
      - rewrite Hold in H. discriminate. }
    assert (Heq : items (replaceItem absentId newProduct q variants size st)
                  = items st
                    ++ [mkCartItem newProduct
                          (if requested q =? 0 then 1 else requested q)
                          variants size]).
    { unfold replaceItem. rewrite items_setItems.
      rewrite replaceItem_updater_unmatched.
      - now rewrite Hfil, Hsame.
      - rewrite Hfil. intros it Hin [Hid _]. now apply (Hnew it Hin). }
    split; [assumption|]. split; [assumption|].
    rewrite Heq. intros E. apply (f_equal (@List.length CartItem)) in E.
    rewrite length_app in E. simpl in E. lia.
  - intros i ex Hfirst. unfold replaceItem. rewrite items_setItems.
    assert (Hfirst' : FirstWith (SameIdentity newProduct size)
                        (removeItem_updater absentId (items st)) i ex)
      by now rewrite Hfil.
    rewrite (replaceItem_updater_found _ _ _ _ _ _ _ _ Hfirst').
    rewrite (sameCategoryReplacement_when_found _ _ _ _ _ _ Hfirst').
    rewrite Hold, Hfil. destruct Hfirst as (Hnth & _).
    now rewrite (update_at_nth_same _ _ _ _ Hnth).
Qed.

Lemma replaceItem_absent_old_still_inserts_witness :
  items (replaceItem "ghost" bowl (Some 4) None None
           (mkProvider [mkCartItem mug 3 None None] None None false))
  = [mkCartItem mug 3 None None; mkCartItem bowl 4 None None].
Proof.
  destruct (replaceItem_absent_old_still_inserts "ghost" bowl (Some 4) None None
              (mkProvider [mkCartItem mug 3 None None] None None false))
    as (_ & Happend & _).
  - intros it [<-|[]]. discriminate.
  - destruct Happend as (_ & Heq & _).
    + intros it [<-|[]]. discriminate.
    + exact Heq.
Defined.

(** C10, as the specification states it, fails for the requested quantity 0,
    which is falsy in [quantity || 1]: the appended line item gets quantity 1,
    not 0. *)
Lemma replaceItem_absent_old_zero_request :
  let st := run [OpAddItem mug (Some 3) None None] (mount None) in
  items st = [mkCartItem mug 3 None None]
  /\ findOldItem "ghost" (items st) = None
  /\ sameCategoryReplacement "ghost" bowl (items st) = false
  /\ items (replaceItem "ghost" bowl (Some 0) None None st)
     = [mkCartItem mug 3 None None; mkCartItem bowl 1 None None]
  /\ items (replaceItem "ghost" bowl (Some 0) None None st)
     <> items st ++ [mkCartItem bowl 0 None None].
Proof.
  repeat split. discriminate.
Qed.

(** ** updateItemSize *)

Section MoreArrayFacts.
Context {A : Type}.
Implicit Types (p : A -> bool) (l : list A).

Lemma findIndex_lt p l i : findIndex p l = Some i -> (i < List.length l)%nat.
Proof.
  intros H. apply findIndex_Some_nth in H. destruct H as (x & Hx & _).
  apply nth_error_Some. congruence.
Qed.

Lemma findIndex_app p l1 l2 :
  findIndex p (l1 ++ l2)
  = match findIndex p l1 with
    | Some k => Some k
    | None => match findIndex p l2 with
              | Some k => Some (List.length l1 + k)%nat
              | None => None
              end
    end.
Proof.
  induction l1 as [|a r IH]; simpl.
  - destruct (findIndex p l2); reflexivity.
  - destruct (p a); [reflexivity|]. rewrite IH.
    destruct (findIndex p r); [reflexivity|].
    destruct (findIndex p l2); reflexivity.
Qed.

Lemma findIndex_existsb p l :
  existsb p l = match findIndex p l with Some _ => true | None => false end.
Proof.
  induction l as [|a r IH]; simpl; [reflexivity|].
  destruct (p a); simpl; [reflexivity|]. rewrite IH.
  destruct (findIndex p r); reflexivity.
Qed.

Lemma mapi_from_nth n (f : nat -> A -> A) l i :
  nth_error (mapi_from n f l) i = option_map (f (n + i)%nat) (nth_error l i).
Proof.
  revert n i. induction l as [|a r IH]; intros n [|i]; simpl; auto.
  - now rewrite Nat.add_0_r.
  - rewrite IH. now rewrite Nat.add_succ_r.
Qed.

Lemma mapi_nth (f : nat -> A -> A) l i :
  nth_error (mapi f l) i = option_map (f i) (nth_error l i).
Proof. apply mapi_from_nth. Qed.

Lemma mapi_from_In n (f : nat -> A -> A) l y :
  In y (mapi_from n f l) -> exists i x, In x l /\ y = f i x.
Proof.
  revert n. induction l as [|a r IH]; intros n; simpl; [tauto|].
  intros [<-|H]; [eauto|]. destruct (IH _ H) as (i & x & Hx & ->). eauto.
Qed.

End MoreArrayFacts.

Lemma sameProductAndSize_true item i :
  sameProductAndSize item i = true <-> productSizeKey i = productSizeKey item.
Proof.
  unfold sameProductAndSize, productSizeKey.
  rewrite andb_true_iff, String.eqb_eq, strictEq_true. split.
  - intros [-> ->]. reflexivity.
  - intros [= -> ->]. auto.
Qed.

Lemma sameProductAndSize_refl item : sameProductAndSize item item = true.
Proof. now apply sameProductAndSize_true. Qed.

(** The positional filter keeps exactly the first occurrences. *)
Lemma keepFirst_from seen l :
  filteri_from (List.length seen)
    (fun item index =>
       match findIndex (sameProductAndSize item) (seen ++ l) with
       | Some k => Nat.eqb index k
       | None => false
       end) l
  = firstsAfter seen l.
Proof.
  remember (seen ++ l) as self eqn:Hself. revert seen Hself.
  induction l as [|x r IH]; intros seen Hself; simpl; [reflexivity|].
  assert (Hnext : self = (seen ++ [x]) ++ r) by (now rewrite <- app_assoc).
  specialize (IH (seen ++ [x]) Hnext).
  rewrite length_app, Nat.add_1_r in IH. rewrite IH.
  rewrite findIndex_existsb. rewrite Hself at 1. rewrite findIndex_app.
  destruct (findIndex (sameProductAndSize x) seen) as [k|] eqn:Ek.
  - apply findIndex_lt in Ek.
    assert (E : Nat.eqb (List.length seen) k = false) by (apply Nat.eqb_neq; lia).
    now rewrite E.
  - simpl. rewrite sameProductAndSize_refl, Nat.add_0_r, Nat.eqb_refl.
    reflexivity.
Qed.

Lemma keepFirstOccurrences_firsts self :
  keepFirstOccurrences self = firstsAfter [] self.
Proof. exact (keepFirst_from [] self). Qed.

Lemma firstsAfter_In seen l x :
  In x (firstsAfter seen l) ->
  In x l /\ forall s, In s seen -> productSizeKey x <> productSizeKey s.
Proof.
  revert seen. induction l as [|a r IH]; intros seen; simpl; [tauto|].
  assert (Hrec : In x (firstsAfter (seen ++ [a]) r) ->
                 In x r /\ forall s, In s seen ->
                                     productSizeKey x <> productSizeKey s).
  { intros H. destruct (IH _ H) as [Hin Hs]. split; [assumption|].
    intros s Hs'. apply Hs. apply in_or_app. now left. }
  destruct (existsb (sameProductAndSize a) seen) eqn:E.
  - intros H. destruct (Hrec H). auto.
  - intros [<-|H].
    + split; [now left|]. intros s Hs Hk.
      assert (Ht : existsb (sameProductAndSize a) seen = true); [|congruence].
      apply existsb_exists. exists s. split; [assumption|].
      now apply sameProductAndSize_true.
    + destruct (Hrec H). auto.
Qed.

Lemma firstsAfter_NoDup seen l :
  NoDup (map productSizeKey (firstsAfter seen l)).
Proof.
  revert seen. induction l as [|a r IH]; intros seen; simpl; [constructor|].
  destruct (existsb (sameProductAndSize a) seen); [apply IH|].
  simpl. constructor; [|apply IH].
  intros Hin. apply in_map_iff in Hin. destruct Hin as (y & Hk & Hy).
  apply firstsAfter_In in Hy. destruct Hy as [_ Hs].
  apply (Hs a); [|assumption]. apply in_or_app. right. now left.
Qed.

Lemma isTarget_true productId size i :
  isTarget productId size i = true <-> IsTarget productId size i.
Proof.
  unfold isTarget, IsTarget.
  now rewrite andb_true_iff, String.eqb_eq, strictEq_true.
Qed.

Lemma findIndex_isTarget productId size l e :
  findIndex (isTarget productId size) l = Some e <->
  exists ex, FirstWith (IsTarget productId size) l e ex.
Proof. apply findIndex_FirstWith. intros x. apply isTarget_true. Qed.

Lemma find_FirstWith {A : Type} (p : A -> bool) (P : A -> Prop)
    (l : list A) (i : nat) (x : A) :
  (forall y, p y = true <-> P y) ->
  FirstWith P l i x -> find p l = Some x.
Proof.
  intros Hr. revert i. induction l as [|a r IH]; intros i (Hnth & HP & Hf).
  - destruct i; discriminate.
  - simpl. destruct i as [|i]; simpl in Hnth.
    + injection Hnth as ->. now rewrite (proj2 (Hr x) HP).
    + destruct (p a) eqn:Ea.
      * apply Hr in Ea. destruct (Hf 0%nat a); [lia|reflexivity|assumption].
      * apply (IH i). split; [assumption|]. split; [assumption|].
        intros j y Hj Hy. apply (Hf (S j)); [lia|assumption].
Qed.

Lemma resizeItem_merge productId size prev e ex i cur :
  FirstWith (IsTarget productId size) prev e ex ->
  e <> i ->
  id (product cur) = productId ->
  resizeItem productId size prev i cur
  = mkCartItem (product ex) (quantity ex + quantity cur)
      (selectedVariants ex) (selectedSize ex).
Proof.
  intros Hfirst Hne Hid. unfold resizeItem.
  rewrite (proj2 (String.eqb_eq _ _) Hid).
  rewrite (proj2 (findIndex_isTarget _ _ _ _) (ex_intro _ ex Hfirst)).
  destruct Hfirst as (-> & _). apply Nat.eqb_neq in Hne. now rewrite Hne.
Qed.

Lemma resizeItem_plain productId size prev i cur :
  id (product cur) = productId ->
  (findIndex (isTarget productId size) prev = None
   \/ findIndex (isTarget productId size) prev = Some i) ->
  resizeItem productId size prev i cur
  = mkCartItem (product cur) (quantity cur) (selectedVariants cur) (Some size).
Proof.
  intros Hid H. unfold resizeItem. rewrite (proj2 (String.eqb_eq _ _) Hid).
  destruct H as [-> | ->]; [reflexivity|].
  rewrite Nat.eqb_refl. simpl. now destruct (nth_error prev i).
Qed.

Lemma resizeItem_other productId size prev i cur :
  id (product cur) <> productId -> resizeItem productId size prev i cur = cur.
Proof.
  intros Hid. unfold resizeItem. now rewrite (proj2 (String.eqb_neq _ _) Hid).
Qed.

(** What the per-item step returns is [item] itself, [item] with the new
    size, or the first target with a summed quantity. *)
Lemma resizeItem_cases productId size prev i cur :
  (id (product cur) <> productId /\ resizeItem productId size prev i cur = cur)
  \/ (id (product cur) = productId /\
      resizeItem productId size prev i cur = setSelectedSize (Some size) cur)
  \/ (id (product cur) = productId /\
      exists e ex, FirstWith (IsTarget productId size) prev e ex /\ e <> i /\
        resizeItem productId size prev i cur
        = setQuantity (quantity ex + quantity cur) ex).
Proof.
  destruct (String.eqb (id (product cur)) productId) eqn:E.
  - apply String.eqb_eq in E. right.
    destruct (findIndex (isTarget productId size) prev) as [e|] eqn:Ef.
    + destruct (Nat.eq_dec e i) as [->|Hne].
      * left. split; [assumption|]. now apply resizeItem_plain; auto.
      * right. split; [assumption|].
        destruct (proj1 (findIndex_isTarget _ _ _ _) Ef) as (ex & Hex).
        exists e, ex. split; [assumption|]. split; [assumption|].
        now apply (resizeItem_merge productId size prev e ex i cur).
    + left. split; [assumption|]. now apply resizeItem_plain; auto.
  - apply String.eqb_neq in E. left. split; [assumption|].
    now apply resizeItem_other.
Qed.

Lemma resizeItem_id productId size prev i cur :
  id (product (resizeItem productId size prev i cur)) = id (product cur).
Proof.
  destruct (resizeItem_cases productId size prev i cur)
    as [[_ ->]|[[_ ->]|[Hid (e & ex & (_ & [Hex _] & _) & _ & ->)]]];
    simpl; congruence.
Qed.

Lemma resizeItem_size productId size prev i cur :
  id (product cur) = productId ->
  selectedSize (resizeItem productId size prev i cur) = Some size.
Proof.
  intros Hid.
  destruct (resizeItem_cases productId size prev i cur)
    as [[Hne _]|[[_ ->]|[_ (e & ex & (_ & [_ Hex] & _) & _ & ->)]]];
    simpl; congruence.
Qed.

Section KeepFirstOfProduct.
Variables (productId : string) (size : string).

Lemma firstsAfter_product_seen seen l :
  (forall x, In x l -> id (product x) = productId ->
             selectedSize x = Some size) ->
  (exists s, In s seen /\ productSizeKey s = (productId, Some size)) ->
  filter (ofProduct productId) (firstsAfter seen l) = [].
Proof.
  revert seen. induction l as [|a r IH]; intros seen Hall (s & Hs & Hk);
    simpl; [reflexivity|].
  assert (Hrec : filter (ofProduct productId) (firstsAfter (seen ++ [a]) r) = []).
  { apply IH; [intros x Hx; apply Hall; simpl; auto|].
    exists s. split; [apply in_or_app; now left|assumption]. }
  destruct (existsb (sameProductAndSize a) seen) eqn:E; [assumption|].
  simpl. rewrite Hrec. unfold ofProduct.
  destruct (String.eqb (id (product a)) productId) eqn:Ea; [|reflexivity].
  apply String.eqb_eq in Ea.
  assert (Ht : existsb (sameProductAndSize a) seen = true); [|congruence].
  apply existsb_exists. exists s. split; [assumption|].
  apply sameProductAndSize_true. rewrite Hk. unfold productSizeKey.
  rewrite Ea, (Hall a); simpl; auto.
Qed.

Lemma firstsAfter_product_first seen l :
  (forall x, In x l -> id (product x) = productId ->
             selectedSize x = Some size) ->
  (forall s, In s seen -> id (product s) <> productId) ->
  filter (ofProduct productId) (firstsAfter seen l)
  = match find (ofProduct productId) l with Some x => [x] | None => [] end.
Proof.
  revert seen. induction l as [|a r IH]; intros seen Hall Hseen; simpl;
    [reflexivity|].
  assert (Hall' : forall x, In x r -> id (product x) = productId ->
                            selectedSize x = Some size)
    by (intros x Hx; apply Hall; simpl; auto).
  unfold ofProduct at 2.
  destruct (String.eqb (id (product a)) productId) eqn:Ea.
  - apply String.eqb_eq in Ea.
    assert (E : existsb (sameProductAndSize a) seen = false).
    { destruct (existsb (sameProductAndSize a) seen) eqn:E; [|reflexivity].
      apply existsb_exists in E. destruct E as (s & Hs & Hk).
      apply sameProductAndSize_true in Hk. injection Hk as Hid _.
      destruct (Hseen s Hs). congruence. }
    rewrite E. simpl. unfold ofProduct at 1.
    rewrite (proj2 (String.eqb_eq _ _) Ea). f_equal.
    apply firstsAfter_product_seen; [assumption|].
    exists a. split; [apply in_or_app; right; now left|].
    unfold productSizeKey. rewrite Ea, (Hall a); simpl; auto.
  - apply String.eqb_neq in Ea.
    assert (Hrec : filter (ofProduct productId) (firstsAfter (seen ++ [a]) r)
                   = match find (ofProduct productId) r with Some x => [x] | None => [] end).
    { apply IH; [assumption|]. intros s Hs. apply in_app_or in Hs.
      destruct Hs as [Hs|[<-|[]]]; auto. }
    destruct (existsb (sameProductAndSize a) seen); [assumption|].
    simpl. unfold ofProduct at 1.
    now rewrite (proj2 (String.eqb_neq _ _) Ea).
Qed.
End KeepFirstOfProduct.

Lemma transformed_sizes productId size prev x :
  In x (mapi (resizeItem productId size prev) prev) ->
  id (product x) = productId -> selectedSize x = Some size.
Proof.
  intros Hin Hid. apply mapi_from_In in Hin. destruct Hin as (i & x0 & _ & ->).
  apply resizeItem_size. now rewrite resizeItem_id in Hid.
Qed.

Lemma transformed_first productId size prev f first :
  FirstWith (fun it => id (product it) = productId) prev f first ->
  FirstWith (fun it => id (product it) = productId)
    (mapi (resizeItem productId size prev) prev) f
    (resizeItem productId size prev f first).
Proof.
  intros (Hnth & Hid & Hf). split; [|split].
  - now rewrite mapi_nth, Hnth.
  - now rewrite resizeItem_id.
  - intros j y Hj Hy. rewrite mapi_nth in Hy.
    destruct (nth_error prev j) as [y0|] eqn:E; [|discriminate].
    injection Hy as <-. rewrite resizeItem_id. now apply (Hf j).
Qed.

(** X16. What [updateItemSize productId size] does, in its two steps.
    Per-item step: a line item of that product ID, when a distinct line item of
    identity (productId, size) is already in the cart, is replaced by that
    existing item's data with quantity = existing quantity + its own
    quantity. De-duplication by (product ID, size): the result has no two
    line items with the same pair, and of all the line items of [productId],
    which the first step has put on the one target size, only the first
    occurrence survives, with the quantity the first step gave it; the later
    ones are dropped and their quantities are not added to it. *)
Proposition updateItemSize_two_steps (productId size : string)
    (st : Provider) :
  let prev := items st in
  let transformed := mapi (resizeItem productId size prev) prev in
  let result := items (updateItemSize productId size st) in
  (forall i cur e ex,
      nth_error prev i = Some cur ->
      id (product cur) = productId ->
      FirstWith (IsTarget productId size) prev e ex ->
      e <> i ->
      nth_error transformed i
      = Some (mkCartItem (product ex) (quantity ex + quantity cur)
                (selectedVariants ex) (selectedSize ex)))
  /\ NoDup (map productSizeKey result)
  /\ (forall it, In it result -> In it transformed)
  /\ (forall f first,
        FirstWith (fun it => id (product it) = productId) prev f first ->
        exists survivor,
          nth_error transformed f = Some survivor
          /\ selectedSize survivor = Some size
          /\ filter (ofProduct productId) result = [survivor]).
Proof.
  intros prev transformed result.
  assert (Hres : result = firstsAfter [] transformed).
  { subst result. unfold updateItemSize. rewrite items_setItems.
    apply keepFirstOccurrences_firsts. }
  split; [|split; [|split]].
  - intros i cur e ex Hcur Hid Hfirst Hne. subst transformed.
    rewrite mapi_nth, Hcur. simpl. f_equal.
    now apply (resizeItem_merge productId size prev e ex i cur).
  - rewrite Hres. apply firstsAfter_NoDup.
  - intros it. rewrite Hres. intros H. now apply firstsAfter_In in H.
  - intros f first Hfirst.
    pose proof (transformed_first productId size prev f first Hfirst) as Ht.
    fold transformed in Ht.
    exists (resizeItem productId size prev f first).
    split; [apply Ht|]. split.
    + apply resizeItem_size. apply Hfirst.
    + rewrite Hres.
      rewrite (firstsAfter_product_first productId size [] transformed).
      * now rewrite (find_FirstWith (ofProduct productId) _ _ _ _
                       (fun y => String.eqb_eq (id (product y)) productId) Ht).
      * intros x. apply transformed_sizes.
      * intros s [].
Qed.

Example updateItemSize_two_steps_sample :
  filter (ofProduct "shirt")
    (items (updateItemSize "shirt" "M"
              (mkProvider [mkCartItem shirt 1 None (Some "S"%string);
                           mkCartItem mug 1 None None;
                           mkCartItem shirt 2 None (Some "L"%string);
                           mkCartItem shirt 4 None (Some "M"%string)]
                 None None false)))
  = [mkCartItem shirt 5 None (Some "M"%string)].
Proof.
  destruct (updateItemSize_two_steps "shirt" "M"
              (mkProvider [mkCartItem shirt 1 None (Some "S"%string);
                           mkCartItem mug 1 None None;
                           mkCartItem shirt 2 None (Some "L"%string);
                           mkCartItem shirt 4 None (Some "M"%string)]
                 None None false))
    as (Hmerge & _ & _ & Hkeep).
  destruct (Hkeep 0%nat (mkCartItem shirt 1 None (Some "S"%string)))
    as (survivor & Hnth & _ & Hfilter).
  - split; [reflexivity|]. split; [reflexivity|]. intros j y Hj. inversion Hj.
  - rewrite Hfilter. f_equal.
    rewrite (Hmerge 0%nat (mkCartItem shirt 1 None (Some "S"%string)) 3%nat
               (mkCartItem shirt 4 None (Some "M"%string))) in Hnth.
    + now injection Hnth as <-.
    + reflexivity.
    + reflexivity.
    + split; [reflexivity|]. split; [split; reflexivity|].
      intros j y Hj Hy [_ Hs].
      destruct j as [|[|[|j]]]; simpl in Hy; try lia;
        injection Hy as <-; discriminate.
    + discriminate.
Defined.



(** The same call when the line item that already has the target size comes
    first in the cart: the per-item step leaves it as it is and gives the
    summed quantity to the later line item being resized, and the
    de-duplication keeps the first and drops the later one, so the survivor
    has its own quantity; with the two line items in the other order the
    survivor carries the sum. *)
Example updateItemSize_target_first_keeps_own_quantity :
  let st := run [OpAddItem shirt (Some 4) None (Some "M"%string);
                 OpAddItem shirt (Some 1) None (Some "S"%string)]
              (mount None) in
  let st' := run [OpAddItem shirt (Some 1) None (Some "S"%string);
                  OpAddItem shirt (Some 4) None (Some "M"%string)]
               (mount None) in
  items st = [mkCartItem shirt 4 None (Some "M"%string);
              mkCartItem shirt 1 None (Some "S"%string)]
  /\ mapi (resizeItem "shirt" "M" (items st)) (items st)
     = [mkCartItem shirt 4 None (Some "M"%string);
        mkCartItem shirt (4 + 1) None (Some "M"%string)]
  /\ items (value_updateItemSize "shirt" "M" st)
     = [mkCartItem shirt 4 None (Some "M"%string)]
  /\ value_itemCount st = 5
  /\ value_itemCount (value_updateItemSize "shirt" "M" st) = 4
  /\ items (value_updateItemSize "shirt" "M" st')
     = [mkCartItem shirt (4 + 1) None (Some "M"%string)].
Proof.
  repeat split.
Qed.

(** ** Uniqueness of identity keys *)

Section KeyFacts.
Context {A B : Type}.

Lemma NoDup_map_same_key (f : A -> B) (l : list A) x y :
  NoDup (map f l) -> In x l -> In y l -> f x = f y -> x = y.
Proof.
  induction l as [|a r IH]; simpl; [tauto|].
  intros Hnd [<-|Hx] [<-|Hy] E; auto; inversion Hnd as [|? ? Hnotin Hnd'];
    subst.
  - destruct Hnotin. rewrite E. now apply in_map.
  - destruct Hnotin. rewrite <- E. now apply in_map.
  - now apply IH.
Qed.

Lemma NoDup_map_coarser {C : Type} (k : A -> B) (g : A -> C) (l : list A) :
  NoDup (map k l) ->
  (forall x y, In x l -> In y l -> g x = g y -> k x = k y) ->
  NoDup (map g l).
Proof.
  induction l as [|a r IH]; simpl; intros Hnd H; [constructor|].
  inversion Hnd as [|? ? Hnotin Hnd']; subst. constructor.
  - intros Hin. apply in_map_iff in Hin. destruct Hin as (y & Hg & Hy).
    apply Hnotin. rewrite (H a y); auto. now apply in_map.
  - apply IH; auto.
Qed.

Lemma NoDup_map_filter (key : A -> B) (keep : A -> bool) (xs : list A)
  (Hkeys : NoDup (map key xs)) :
  NoDup (map key (filter keep xs)).
Proof.
  induction xs as [|a r IH]; simpl; [constructor|].
  inversion Hkeys as [|? ? Hnotin Hrest]; subst.
  destruct (keep a); simpl; [|auto]. constructor; [|auto].
  intros Hin. apply Hnotin. apply in_map_iff in Hin.
  destruct Hin as (y & <- & Hy). apply in_map. now apply filter_In in Hy.
Qed.

Lemma NoDup_map_snoc (f : A -> B) (l : list A) (x : A) :
  NoDup (map f l) -> (forall y, In y l -> f y <> f x) ->
  NoDup (map f (l ++ [x])).
Proof.
  intros Hnd H. rewrite map_app. apply NoDup_app; [assumption| |].
  - simpl. constructor; [tauto|constructor].
  - intros b Hb [<-|[]]. apply in_map_iff in Hb.
    destruct Hb as (y & E & Hy). now apply (H y).
Qed.

Lemma update_at_map_at (g : A -> B) i (f : A -> A) (l : list A) x :
  nth_error l i = Some x -> g (f x) = g x ->
  map g (update_at i f l) = map g l.
Proof.
  revert i. induction l as [|a r IH]; intros [|i]; simpl; try discriminate.
  - intros [= ->] E. now rewrite E.
  - intros Hx E. now rewrite (IH i).
Qed.

Lemma update_at_Forall (P : A -> Prop) i (f : A -> A) (l : list A) :
  (forall x, P x -> P (f x)) -> Forall P l -> Forall P (update_at i f l).
Proof.
  intros Hf. revert i. induction l as [|a r IH]; intros i HP; simpl.
  - destruct i; constructor.
  - inversion HP; subst. destruct i; constructor; auto.
Qed.
End KeyFacts.

Lemma strOr_same s : strOr s s = s.
Proof. destruct s as [[|c s]|]; reflexivity. Qed.

Section Preservation.
Variable sized : string -> bool.

Lemma identityKey_eq x y :
  FlagFollows sized x -> FlagFollows sized y ->
  (identityKey x = identityKey y <->
   id (product x) = id (product y) /\
   (sized (id (product x)) = true -> selectedSize x = selectedSize y)).
Proof.
  unfold FlagFollows, identityKey. intros Hx Hy. split.
  - intros E. injection E as Hid Hs. split; [assumption|].
    intros Ht. rewrite Hx, Hy, <- Hid, Ht in Hs. congruence.
  - intros [Hid Hs]. rewrite Hx, Hy, <- Hid. f_equal.
    destruct (sized (id (product x))); [|reflexivity].
    now rewrite Hs.
Qed.

Lemma WellKeyed_nil : WellKeyed sized [].
Proof. split; constructor. Qed.

Lemma WellKeyed_removeItem productId l :
  WellKeyed sized l -> WellKeyed sized (removeItem_updater productId l).
Proof.
  intros [Hf Hn]. split.
  - apply Forall_forall. intros x Hx. apply removeItem_updater_In in Hx.
    now apply (proj1 (Forall_forall _ _) Hf).
  - now apply NoDup_map_filter.
Qed.

Lemma WellKeyed_updateQuantity productId q l :
  WellKeyed sized l -> WellKeyed sized (updateQuantity_updater productId q l).
Proof.
  intros [Hf Hn]. unfold updateQuantity_updater. split.
  - apply Forall_forall. intros y Hy. apply in_map_iff in Hy.
    destruct Hy as (x & <- & Hx).
    pose proof (proj1 (Forall_forall _ _) Hf x Hx) as HF.
    now destruct (String.eqb (id (product x)) productId).
  - unfold UniqueIdentities. rewrite map_map.
    erewrite map_ext; [exact Hn|]. intros x. simpl.
    now destruct (String.eqb (id (product x)) productId).
Qed.

(** A line item with the identity key of a new record for [p] is one the
    identity test of [addItem] and [replaceItem] accepts. *)
Lemma same_key_SameIdentity p q variants size x :
  hasSizes p = sized (id p) -> FlagFollows sized x ->
  identityKey x = identityKey (mkCartItem p q variants size) ->
  SameIdentity p size x.
Proof.
  intros Hp Hx E.
  assert (Hnew : FlagFollows sized (mkCartItem p q variants size)) by exact Hp.
  apply (identityKey_eq _ _ Hx Hnew) in E. simpl in E. destruct E as [Hid Hs].
  split; [assumption|]. intros Ht. apply Hs. rewrite Hid, <- Hp. exact Ht.
Qed.

Lemma WellKeyed_append p q variants size l :
  hasSizes p = sized (id p) ->
  (forall it, In it l -> ~ SameIdentity p size it) ->
  WellKeyed sized l -> WellKeyed sized (l ++ [mkCartItem p q variants size]).
Proof.
  intros Hp Hnone [Hf Hn]. split.
  - apply Forall_app. split; [assumption|]. constructor; [exact Hp|constructor].
  - apply NoDup_map_snoc; [assumption|]. intros y Hy E.
    apply (Hnone y Hy). apply (same_key_SameIdentity p q variants size); auto.
    now apply (proj1 (Forall_forall _ _) Hf).
Qed.

Lemma WellKeyed_addItem p q variants size l :
  hasSizes p = sized (id p) ->
  WellKeyed sized l -> WellKeyed sized (addItem_updater p q variants size l).
Proof.
  intros Hp HW. unfold addItem_updater.
  destruct (findIndex (matchesProduct p size) l) as [i|] eqn:E.
  - destruct HW as [Hf Hn]. split.
    + apply update_at_Forall; [|assumption]. intros x Hx. exact Hx.
    + unfold UniqueIdentities. now rewrite update_at_map.
  - apply WellKeyed_append; auto.
    now apply findIndex_matchesProduct_None.
Qed.

Lemma WellKeyed_replaceItem oldProductId p q variants size l :
  hasSizes p = sized (id p) ->
  WellKeyed sized l ->
  WellKeyed sized (replaceItem_updater oldProductId p q variants size l).
Proof.
  intros Hp HW. apply (WellKeyed_removeItem oldProductId) in HW.
  unfold replaceItem_updater. cbv zeta.
  destruct (findIndex (matchesProduct p size) (removeItem_updater oldProductId l))
    as [i|] eqn:E.
  - destruct HW as [Hf Hn].
    apply findIndex_matchesProduct in E.
    destruct E as (ex & Hnth & [Hid Hsize] & _). split.
    + apply update_at_Forall; [|assumption]. intros x Hx. exact Hx.
    + unfold UniqueIdentities.
      rewrite (update_at_map_at identityKey _ _ _ ex Hnth); [assumption|].
      unfold identityKey. simpl. f_equal.
      destruct (hasSizes (product ex)) eqn:Hs; [|reflexivity].
      assert (Hex : FlagFollows sized ex).
      { apply (proj1 (Forall_forall _ _) Hf). eapply nth_error_In; eauto. }
      unfold FlagFollows in Hex. rewrite Hs, Hid, <- Hp in Hex.
      rewrite (Hsize (eq_sym Hex)). now rewrite strOr_same.
  - apply WellKeyed_append; auto.
    now apply findIndex_matchesProduct_None.
Qed.
End Preservation.

Section PreservationBySize.
Variable sized : string -> bool.

Lemma transformed_other productId size l x :
  In x (mapi (resizeItem productId size l) l) ->
  id (product x) <> productId -> In x l.
Proof.
  intros Hin Hid. apply mapi_from_In in Hin.
  destruct Hin as (i & x0 & Hx0 & ->). rewrite resizeItem_id in Hid.
  now rewrite resizeItem_other.
Qed.

Lemma transformed_flags productId size l x :
  Forall (FlagFollows sized) l ->
  In x (mapi (resizeItem productId size l) l) -> FlagFollows sized x.
Proof.
  intros Hf Hin. apply mapi_from_In in Hin.
  destruct Hin as (i & x0 & Hx0 & ->).
  pose proof (proj1 (Forall_forall _ _) Hf) as Hall.
  destruct (resizeItem_cases productId size l i x0)
    as [[_ ->]|[[_ ->]|[_ (e & ex & (Hnth & _) & _ & ->)]]].
  - now apply Hall.
  - now apply (Hall x0).
  - apply nth_error_In in Hnth. now apply (Hall ex).
Qed.

Lemma WellKeyed_updateItemSize productId size l :
  WellKeyed sized l ->
  WellKeyed sized (updateItemSize_updater productId size l).
Proof.
  intros [Hf Hn]. unfold updateItemSize_updater.
  rewrite keepFirstOccurrences_firsts.
  set (transformed := mapi (resizeItem productId size l) l).
  assert (Hsub : forall x, In x (firstsAfter [] transformed) ->
                           In x transformed)
    by (intros x Hx; now apply firstsAfter_In in Hx).
  split.
  - apply Forall_forall. intros x Hx.
    apply (transformed_flags productId size l); auto.
  - apply (NoDup_map_coarser productSizeKey); [apply firstsAfter_NoDup|].
    intros x y Hx Hy E. apply Hsub in Hx, Hy.
    assert (Hid : id (product x) = id (product y)) by now injection E.
    destruct (String.eqb (id (product x)) productId) eqn:Ex.
    + apply String.eqb_eq in Ex.
      assert (Hsx : selectedSize x = Some size)
        by (apply (transformed_sizes productId size l); assumption).
      assert (Hsy : selectedSize y = Some size)
        by (apply (transformed_sizes productId size l);
            [assumption|congruence]).
      unfold productSizeKey. congruence.
    + apply String.eqb_neq in Ex. f_equal.
      apply (NoDup_map_same_key identityKey l); auto.
      * now apply (transformed_other productId size).
      * apply (transformed_other productId size); [assumption|congruence].
Qed.

Lemma items_commitEffects st : items (commitEffects st) = items st.
Proof. unfold commitEffects. now destruct (itemsChanged st). Qed.

Lemma items_dispatch_gated h st :
  items (dispatch (gated h st) st)
  = match directPurchaseItem st with
    | Some _ => items st
    | None => items (h st)
    end.
Proof.
  unfold dispatch, gated. rewrite items_commitEffects.
  now destruct (directPurchaseItem st).
Qed.

Lemma WellKeyed_call st op :
  (forall p, In p (productsOfOp op) -> hasSizes p = sized (id p)) ->
  WellKeyed sized (items st) -> WellKeyed sized (items (call st op)).
Proof.
  intros Hp HW.
  destruct op as [p q v s|pid|pid q|pid s|o n q v s| | |r]; simpl;
    unfold value_addItem, value_removeItem, value_updateQuantity,
      value_updateItemSize, value_replaceItem;
    try (rewrite items_dispatch_gated;
         destruct (directPurchaseItem st); [assumption|]).
  - apply WellKeyed_addItem; [apply Hp; simpl; auto|assumption].
  - now apply WellKeyed_removeItem.
  - unfold updateQuantity. destruct (q <=? 0).
    + now apply WellKeyed_removeItem.
    + now apply WellKeyed_updateQuantity.
  - now apply WellKeyed_updateItemSize.
  - apply WellKeyed_replaceItem; [apply Hp; simpl; auto|assumption].
  - apply WellKeyed_nil.
  - unfold value_clearDirectPurchase, dispatch.
    now rewrite items_commitEffects.
  - unfold value_setDirectPurchaseItem, dispatch.
    now rewrite items_commitEffects.
Qed.

Lemma WellKeyed_run ops st :
  (forall p, In p (productsOf ops) -> hasSizes p = sized (id p)) ->
  WellKeyed sized (items st) -> WellKeyed sized (items (run ops st)).
Proof.
  revert st. induction ops as [|op ops IH]; intros st Hp HW; simpl;
    [assumption|].
  apply IH.
  - intros p Hin. apply Hp. unfold productsOf. simpl. apply in_or_app.
    now right.
  - apply WellKeyed_call; [|assumption].
    intros p Hin. apply Hp. unfold productsOf. simpl. apply in_or_app.
    now left.
Qed.
End PreservationBySize.

Lemma sizedIn_agrees ps p :
  SizesAgree ps -> In p ps -> hasSizes p = sizedIn ps (id p).
Proof.
  intros Hagree Hin. unfold sizedIn.
  destruct (find (fun p' => String.eqb (id p') (id p)) ps) as [p'|] eqn:E.
  - apply find_some in E. destruct E as [Hin' Hid].
    apply String.eqb_eq in Hid. symmetry. now apply Hagree.
  - pose proof (find_none _ _ E p Hin) as H. simpl in H.
    now rewrite String.eqb_refl in H.
Qed.

(** C2, as the code has it. From the empty state, every sequence of calls
    of the exposed operations (the six mutating ones, and
    [clearDirectPurchase] and [setDirectPurchaseItem] as well) leaves a cart
    without two line items of the same identity key, provided the product
    records handed to [addItem] and [replaceItem] under one product ID agree
    on whether the product has sizes. *)
Theorem identity_keys_unique_when_sizes_agree (ops : list Op) :
  SizesAgree (productsOf ops) ->
  UniqueIdentities (items (run ops (mount None))).
Proof.
  intros Hagree.
  apply (WellKeyed_run (sizedIn (productsOf ops)) ops (mount None)).
  - intros p Hin. now apply sizedIn_agrees.
  - apply WellKeyed_nil.
Qed.

Lemma identity_keys_unique_when_sizes_agree_witness :
  UniqueIdentities
    (items (run [OpAddItem shirt (Some 1) None (Some "M"%string);
                 OpAddItem shirt (Some 1) None (Some "L"%string);
                 OpUpdateItemSize "shirt" "M";
                 OpReplaceItem "shirt" mug None None None]
              (mount None))).
Proof.
  apply identity_keys_unique_when_sizes_agree.
  intros p p' Hp Hp' Hid.
  simpl in Hp, Hp'.
  destruct Hp as [<-|[<-|[<-|[]]]]; destruct Hp' as [<-|[<-|[<-|[]]]];
    try reflexivity; discriminate Hid.
Defined.

(** C2, as the specification states it, fails: two sized line items of one
    product, then a [replaceItem] that brings a record of the same product ID
    without sizes, which matches the first line item by ID alone and
    overwrites its size with one the second line item already has. *)
Lemma identity_keys_clash_on_disagreeing_records :
  let ops := [OpAddItem shirt (Some 1) None (Some "M"%string);
              OpAddItem shirt (Some 1) None (Some "L"%string);
              OpReplaceItem "ghost" shirtWithoutSizes None None
                (Some "L"%string)] in
  items (run ops (mount None))
  = [mkCartItem shirt 1 None (Some "L"%string);
     mkCartItem shirt 1 None (Some "L"%string)]
  /\ ~ UniqueIdentities (items (run ops (mount None))).
Proof.
  split; [reflexivity|].
  intros H. inversion H as [|k ks Hnotin _]. apply Hnotin. now left.
Qed.

(** ** Persistence across calls *)

Lemma AtRest_commitEffects st :
  itemsChanged st = true \/ AtRest st -> AtRest (commitEffects st).
Proof.
  unfold commitEffects, AtRest. intros [H|[H1 H2]].
  - rewrite H. simpl. auto.
  - rewrite H1. auto.
Qed.

Lemma AtRest_mount saved : AtRest (mount saved).
Proof. apply AtRest_commitEffects. now left. Qed.

Lemma AtRest_gated h st :
  AtRest st -> itemsChanged (h st) = true -> AtRest (dispatch (gated h st) st).
Proof.
  intros Hst Hh. unfold dispatch, gated. apply AtRest_commitEffects.
  destruct (directPurchaseItem st); [now right|now left].
Qed.

Lemma AtRest_call st op : AtRest st -> AtRest (call st op).
Proof.
  intros Hst. destruct op as [p q v s|pid|pid q|pid s|o n q v s| | |r]; simpl.
  - now apply AtRest_gated.
  - now apply AtRest_gated.
  - apply AtRest_gated; [assumption|]. unfold updateQuantity.
    now destruct (q <=? 0).
  - now apply AtRest_gated.
  - now apply AtRest_gated.
  - apply AtRest_commitEffects. now left.
  - apply AtRest_commitEffects. right. exact Hst.
  - apply AtRest_commitEffects. right. exact Hst.
Qed.

Lemma AtRest_run ops st : AtRest st -> AtRest (run ops st).
Proof.
  revert st. induction ops as [|op ops IH]; intros st Hst; simpl;
    [assumption|].
  apply IH. now apply AtRest_call.
Qed.

(** X1. When the provider is mounted on no ['cart'] entry, on an entry that
    does not parse or on an entry that holds a cart array, then after the
    mount and after every sequence of exposed calls the entry is present and
    holds exactly the current cart sequence, and no persistence effect is
    pending. *)
Theorem persisted_entry_follows_cart (saved : option (list CartItem))
    (ops : list Op) :
  let st := run ops (mount saved) in
  localStorage_getItem st = Some (items st) /\ itemsChanged st = false.
Proof.
  intros st.
  destruct (AtRest_run ops (mount saved) (AtRest_mount saved)) as [Hc Hs].
  fold st in Hc, Hs. unfold localStorage_getItem. now rewrite Hs.
Qed.

(** ** Direct purchase *)

(** X2. Between two calls, [setDirectPurchaseItem] touches neither the cart
    sequence nor the ['cart'] entry, and while it is in force the exposed
    item count is the sum of the quantities of the exposed items;
    [clearDirectPurchase] afterwards gives the state that
    [clearDirectPurchase] alone gives, which is the state before when no
    direct-purchase item was set. *)
Theorem direct_purchase_set_then_clear (r : DirectPurchaseRequest)
    (st : Provider) :
  AtRest st ->
  items (value_setDirectPurchaseItem r st) = items st
  /\ localStorage_getItem (value_setDirectPurchaseItem r st)
     = localStorage_getItem st
  /\ value_itemCount (value_setDirectPurchaseItem r st)
     = itemCount (value_items (value_setDirectPurchaseItem r st))
  /\ value_clearDirectPurchase (value_setDirectPurchaseItem r st)
     = value_clearDirectPurchase st
  /\ (directPurchaseItem st = None ->
      value_clearDirectPurchase (value_setDirectPurchaseItem r st) = st).
Proof.
  intros [Hc Hs]. destruct st as [its d stored changed]. simpl in Hc, Hs.
  subst changed stored.
  unfold value_setDirectPurchaseItem, value_clearDirectPurchase, dispatch,
    clearDirectPurchase, setDirectPurchaseItemState, commitEffects,
    value_itemCount, value_items, itemCount. simpl.
  repeat split. intros ->. reflexivity.
Qed.

Lemma direct_purchase_set_then_clear_witness :
  let st := run [OpAddItem mug (Some 2) None None] (mount None) in
  value_clearDirectPurchase
    (value_setDirectPurchaseItem
       (mkDirectPurchaseRequest shirt 4 None (Some "L"%string)) st)
  = st.
Proof.
  intros st.
  destruct (direct_purchase_set_then_clear
              (mkDirectPurchaseRequest shirt 4 None (Some "L"%string)) st)
    as (_ & _ & _ & _ & Hback).
  - split; reflexivity.
  - apply Hback. reflexivity.
Defined.

(** ** removeItem and addItem together *)

Lemma filter_update_at {A : Type} (g : A -> bool) i (f : A -> A) (l : list A) :
  (forall x, g (f x) = g x) ->
  (forall x, nth_error l i = Some x -> g x = false) ->
  filter g (update_at i f l) = filter g l.
Proof.
  intros Hg. revert i. induction l as [|a r IH]; intros [|i] Hi; simpl; auto.
  - now rewrite Hg, (Hi a eq_refl).
  - rewrite (IH i); [reflexivity|]. intros x Hx. now apply Hi.
Qed.

Lemma removeItem_updater_twice productId productId' l :
  removeItem_updater productId (removeItem_updater productId' l)
  = removeItem_updater productId' (removeItem_updater productId l).
Proof.
  unfold removeItem_updater. induction l as [|a r IH]; simpl; [reflexivity|].
  destruct (String.eqb (id (product a)) productId) eqn:E1,
           (String.eqb (id (product a)) productId') eqn:E2; simpl;
    rewrite ?E1, ?E2; simpl; now rewrite IH.
Qed.

(** X3. [removeItem productId] leaves no line item of that product, whatever
    its size, does nothing on a cart without one, gives the same cart when
    called a second time, and two removals commute. *)
Theorem removeItem_idempotent_and_complete (productId : string)
    (st : Provider) :
  (forall it, In it (items (removeItem productId st)) ->
              id (product it) <> productId)
  /\ ((forall it, In it (items st) -> id (product it) <> productId) ->
      items (removeItem productId st) = items st)
  /\ items (removeItem productId (removeItem productId st))
     = items (removeItem productId st)
  /\ (forall productId',
        items (removeItem productId (removeItem productId' st))
        = items (removeItem productId' (removeItem productId st))).
Proof.
  unfold removeItem. rewrite !items_setItems. split; [|split; [|split]].
  - intros it Hit. now apply removeItem_updater_In in Hit.
  - apply removeItem_updater_absent.
  - apply removeItem_updater_absent. intros it Hit.
    now apply removeItem_updater_In in Hit.
  - intros productId'. rewrite !items_setItems.
    apply removeItem_updater_twice.
Qed.

Lemma removeItem_idempotent_and_complete_witness :
  items (removeItem "bowl"
           (run [OpAddItem mug (Some 2) None None] (mount None)))
  = [mkCartItem mug 2 None None].
Proof.
  apply (proj1 (proj2 (removeItem_idempotent_and_complete "bowl"
                         (run [OpAddItem mug (Some 2) None None]
                            (mount None))))).
  intros it [<-|[]]. discriminate.
Defined.

(** X4. Removing a product right after adding it gives what removing it
    without the addition gives: [addItem] changes no line item of another
    product, and on a cart without the product the two calls cancel. *)
Theorem removeItem_undoes_addItem (p : Item) (q : option Z)
    (variants : option (list (string * string))) (size : option string)
    (st : Provider) :
  items (removeItem (id p) (addItem p q variants size st))
  = items (removeItem (id p) st)
  /\ ((forall it, In it (items st) -> id (product it) <> id p) ->
      items (removeItem (id p) (addItem p q variants size st)) = items st).
Proof.
  assert (Hmain : items (removeItem (id p) (addItem p q variants size st))
                  = items (removeItem (id p) st)).
  { unfold removeItem, addItem. rewrite !items_setItems.
    unfold addItem_updater.
    destruct (findIndex (matchesProduct p size) (items st)) as [i|] eqn:E.
    - unfold removeItem_updater. apply filter_update_at.
      + intros x. reflexivity.
      + intros x Hx. apply findIndex_matchesProduct in E.
        destruct E as (x' & Hx' & [Hid _] & _).
        assert (x' = x) by congruence. subst x'.
        apply negb_false_iff. now apply String.eqb_eq.
    - unfold removeItem_updater. rewrite filter_app. simpl.
      rewrite String.eqb_refl. simpl. apply app_nil_r. }
  split; [exact Hmain|].
  intros Habsent. rewrite Hmain. unfold removeItem. rewrite items_setItems.
  now apply removeItem_updater_absent.
Qed.

Lemma removeItem_undoes_addItem_witness :
  items (removeItem "bowl"
           (addItem bowl (Some 3) None None
              (run [OpAddItem mug (Some 2) None None] (mount None))))
  = [mkCartItem mug 2 None None].
Proof.
  apply (proj2 (removeItem_undoes_addItem bowl (Some 3) None None
                  (run [OpAddItem mug (Some 2) None None] (mount None)))).
  intros it [<-|[]]. discriminate.
Defined.

(** ** Item count *)

Lemma itemCount_shift (l : list CartItem) (a : Z) :
  fold_left (fun sum item => sum + quantity item) l a = a + itemCount l.
Proof.
  unfold itemCount. revert a. induction l as [|x r IH]; intros a; simpl;
    [lia|].
  rewrite IH, (IH (quantity x)). lia.
Qed.

Lemma itemCount_cons x l : itemCount (x :: l) = quantity x + itemCount l.
Proof. unfold itemCount at 1. simpl. now rewrite itemCount_shift. Qed.

Lemma itemCount_app l1 l2 : itemCount (l1 ++ l2) = itemCount l1 + itemCount l2.
Proof.
  induction l1 as [|x r IH]; simpl; [reflexivity|].
  rewrite !itemCount_cons, IH. lia.
Qed.

Lemma itemCount_update_at i f l x :
  nth_error l i = Some x ->
  itemCount (update_at i f l) = itemCount l - quantity x + quantity (f x).
Proof.
  revert i. induction l as [|a r IH]; intros [|i]; simpl; try discriminate.
  - intros [= ->]. rewrite !itemCount_cons. lia.
  - intros Hx. rewrite !itemCount_cons, (IH i Hx). lia.
Qed.

(** X5. [addItem] raises the sum of the quantities of the cart by exactly
    the requested quantity (1 when omitted), whether it merges into a line
    item or appends one; through the context value this is the exposed item
    count outside direct-purchase mode. *)
Theorem addItem_adds_to_itemCount (p : Item) (q : option Z)
    (variants : option (list (string * string))) (size : option string)
    (st : Provider) :
  itemCount (items (addItem p q variants size st))
  = itemCount (items st) + requested q
  /\ (directPurchaseItem st = None ->
      value_itemCount (value_addItem p q variants size st)
      = value_itemCount st + requested q).
Proof.
  assert (Hmain : itemCount (items (addItem p q variants size st))
                  = itemCount (items st) + requested q).
  { unfold addItem. rewrite items_setItems. unfold addItem_updater.
    destruct (findIndex (matchesProduct p size) (items st)) as [i|] eqn:E.
    - apply findIndex_Some_nth in E. destruct E as (x & Hx & _).
      rewrite (itemCount_update_at _ _ _ _ Hx). simpl. lia.
    - rewrite itemCount_app, itemCount_cons.
      change (itemCount []) with 0. simpl. lia. }
  split; [exact Hmain|].
  intros Hd. unfold value_itemCount, value_addItem, dispatch, gated.
  rewrite Hd. unfold commitEffects. simpl. rewrite Hd. exact Hmain.
Qed.

Lemma addItem_adds_to_itemCount_witness :
  value_itemCount
    (value_addItem mug (Some 3) None None
       (run [OpAddItem mug (Some 2) None None] (mount None)))
  = 2 + 3.
Proof.
  apply (proj2 (addItem_adds_to_itemCount mug (Some 3) None None
                  (run [OpAddItem mug (Some 2) None None] (mount None)))).
  reflexivity.
Defined.

(** X6. For a product with sizes, two sizes are two line items: adding the
    product in two different sizes to a cart that holds it in neither
    appends two lines, each with its own quantity, variants and size. *)
Theorem addItem_sizes_are_separate_lines (p : Item) (q1 q2 : option Z)
    (v1 v2 : option (list (string * string))) (s1 s2 : option string)
    (st : Provider) :
  hasSizes p = true ->
  s1 <> s2 ->
  (forall it, In it (items st) -> id (product it) = id p ->
              selectedSize it <> s1 /\ selectedSize it <> s2) ->
  items (addItem p q2 v2 s2 (addItem p q1 v1 s1 st))
  = items st ++ [mkCartItem p (requested q1) v1 s1;
                 mkCartItem p (requested q2) v2 s2].
Proof.
  intros Hs Hne Hfree. unfold addItem. rewrite !items_setItems.
  rewrite (addItem_updater_new p (requested q1) v1 s1 (items st)).
  2:{ intros it Hit [Hid Hsz]. destruct (Hfree it Hit Hid) as [H1 _].
      apply H1. now apply Hsz. }
  rewrite addItem_updater_new.
  - now rewrite <- app_assoc.
  - intros it Hit [Hid Hsz]. specialize (Hsz Hs). apply in_app_or in Hit.
    destruct Hit as [Hit|[<-|[]]].
    + destruct (Hfree it Hit Hid) as [_ H2]. now apply H2.
    + simpl in Hsz. congruence.
Qed.

Lemma addItem_sizes_are_separate_lines_witness :
  items (addItem shirt None None (Some "L"%string)
           (addItem shirt None None (Some "M"%string) (mount None)))
  = [mkCartItem shirt 1 None (Some "M"%string);
     mkCartItem shirt 1 None (Some "L"%string)].
Proof.
  apply (addItem_sizes_are_separate_lines shirt None None None None
           (Some "M"%string) (Some "L"%string) (mount None)).
  - reflexivity.
  - discriminate.
  - intros it [].
Defined.

(** ** Product-and-size uniqueness without [replaceItem] *)

Lemma UniqueProductSizes_addItem p q variants size l :
  UniqueProductSizes l ->
  UniqueProductSizes (addItem_updater p q variants size l).
Proof.
  intros Hn. unfold addItem_updater, UniqueProductSizes.
  destruct (findIndex (matchesProduct p size) l) as [i|] eqn:E.
  - now rewrite update_at_map.
  - apply NoDup_map_snoc; [assumption|]. intros y Hy Hk.
    apply (proj1 (findIndex_matchesProduct_None p size l) E y Hy).
    injection Hk as Hid Hs. split; [assumption|]. intros _. exact Hs.
Qed.

Lemma UniqueProductSizes_updateQuantity productId q l :
  UniqueProductSizes l ->
  UniqueProductSizes (updateQuantity_updater productId q l).
Proof.
  intros Hn. unfold updateQuantity_updater, UniqueProductSizes.
  rewrite map_map. erewrite map_ext; [exact Hn|]. intros x. simpl.
  now destruct (String.eqb (id (product x)) productId).
Qed.

Lemma UniqueProductSizes_updateItemSize productId size l :
  UniqueProductSizes (updateItemSize_updater productId size l).
Proof.
  unfold updateItemSize_updater, UniqueProductSizes.
  rewrite keepFirstOccurrences_firsts. apply firstsAfter_NoDup.
Qed.

Lemma UniqueProductSizes_call st op :
  isReplaceItem op = false ->
  UniqueProductSizes (items st) -> UniqueProductSizes (items (call st op)).
Proof.
  intros Hop Hn.
  destruct op as [p q v s|pid|pid q|pid s|o n q v s| | |r]; simpl;
    try discriminate Hop;
    unfold value_addItem, value_removeItem, value_updateQuantity,
      value_updateItemSize;
    try (rewrite items_dispatch_gated;
         destruct (directPurchaseItem st); [assumption|]).
  - now apply UniqueProductSizes_addItem.
  - now apply NoDup_map_filter.
  - unfold updateQuantity. destruct (q <=? 0).
    + now apply NoDup_map_filter.
    + now apply UniqueProductSizes_updateQuantity.
  - apply UniqueProductSizes_updateItemSize.
  - constructor.
  - unfold value_clearDirectPurchase, dispatch.
    now rewrite items_commitEffects.
  - unfold value_setDirectPurchaseItem, dispatch.
    now rewrite items_commitEffects.
Qed.

(** X7. Without [replaceItem], no sequence of exposed calls gives the cart
    two line items with the same product ID and selected size, whatever
    product records the calls pass (they need not agree on having sizes):
    the property holds after the calls when it holds before, in particular
    from the empty cart. *)
Theorem product_sizes_unique_without_replaceItem (ops : list Op)
    (st : Provider) :
  forallb (fun op => negb (isReplaceItem op)) ops = true ->
  UniqueProductSizes (items st) ->
  UniqueProductSizes (items (run ops st)).
Proof.
  revert st. induction ops as [|op ops IH]; intros st Hops Hn; simpl;
    [assumption|].
  simpl in Hops. apply andb_true_iff in Hops. destruct Hops as [Hop Hops].
  apply IH; [assumption|]. apply UniqueProductSizes_call; [|assumption].
  now apply negb_true_iff.
Qed.

Lemma product_sizes_unique_without_replaceItem_witness :
  UniqueProductSizes
    (items (run [OpAddItem shirt (Some 1) None (Some "M"%string);
                 OpAddItem shirtWithoutSizes (Some 1) None (Some "L"%string);
                 OpUpdateItemSize "shirt" "L"]
              (mount None))).
Proof.
  apply product_sizes_unique_without_replaceItem.
  - reflexivity.
  - constructor.
Defined.

(** ** More on updateItemSize *)

Lemma NoDup_map_same_position {A B : Type} (f : A -> B) (l : list A) i j x y :
  NoDup (map f l) ->
  nth_error l i = Some x -> nth_error l j = Some y -> f x = f y -> i = j.
Proof.
  intros Hn Hx Hy E.
  apply (proj1 (NoDup_nth_error (map f l)) Hn).
  - rewrite length_map. apply nth_error_Some. congruence.
  - rewrite !nth_error_map, Hx, Hy. simpl. now rewrite E.
Qed.

Lemma mapi_from_fixed {A : Type} n (f : nat -> A -> A) (l : list A) :
  (forall i x, nth_error l i = Some x -> f (n + i)%nat x = x) ->
  mapi_from n f l = l.
Proof.
  revert n. induction l as [|a r IH]; intros n H; simpl; [reflexivity|].
  f_equal.
  - rewrite <- (Nat.add_0_r n). now apply H.
  - apply IH. intros i x Hx. rewrite Nat.add_succ_l, <- Nat.add_succ_r.
    now apply (H (S i)).
Qed.

Lemma firstsAfter_fixed seen l :
  (forall x s, In x l -> In s seen -> productSizeKey x <> productSizeKey s) ->
  UniqueProductSizes l -> firstsAfter seen l = l.
Proof.
  revert seen. induction l as [|a r IH]; intros seen Hseen Hn; simpl;
    [reflexivity|].
  inversion Hn as [|? ? Hnotin Hn']; subst.
  assert (E : existsb (sameProductAndSize a) seen = false).
  { destruct (existsb (sameProductAndSize a) seen) eqn:E; [|reflexivity].
    apply existsb_exists in E. destruct E as (s & Hs & Hk).
    apply sameProductAndSize_true in Hk.
    destruct (Hseen a s); simpl; auto. }
  rewrite E. f_equal. apply IH; [|assumption].
  intros x s Hx Hs Hk. apply in_app_or in Hs. destruct Hs as [Hs|[<-|[]]].
  - apply (Hseen x s); simpl; auto.
  - apply Hnotin. rewrite <- Hk. now apply in_map.
Qed.

Lemma setSelectedSize_same x size :
  selectedSize x = Some size -> setSelectedSize (Some size) x = x.
Proof. destruct x; simpl. now intros ->. Qed.

(** A cart without duplicates whose lines of the product all have the size
    already is left as it is. *)
Lemma updateItemSize_updater_fixed productId size l :
  UniqueProductSizes l ->
  (forall x, In x l -> id (product x) = productId ->
             selectedSize x = Some size) ->
  updateItemSize_updater productId size l = l.
Proof.
  intros Hn Hsized. unfold updateItemSize_updater.
  assert (Hmap : mapi (resizeItem productId size l) l = l).
  { apply mapi_from_fixed. intros i x Hx. simpl.
    destruct (resizeItem_cases productId size l i x)
      as [[_ ->]|[[Hid ->]|[Hid (e & ex & (Hex & [Hid' Hs'] & _) & Hne & _)]]].
    - reflexivity.
    - apply setSelectedSize_same. apply Hsized; [|assumption].
      eapply nth_error_In; eauto.
    - destruct Hne. apply (NoDup_map_same_position productSizeKey l e i ex x);
        auto.
      unfold productSizeKey. rewrite Hid, Hid', Hs'. f_equal. symmetry.
      apply Hsized; [|assumption]. eapply nth_error_In; eauto. }
  rewrite Hmap, keepFirstOccurrences_firsts.
  apply firstsAfter_fixed; [|assumption]. intros x s _ [].
Qed.

(** X8. [updateItemSize] always returns a cart without two line items of
    the same product ID and size, in which every line item of the product
    has the new size, and calling it a second time with the same arguments
    changes nothing more. *)
Theorem updateItemSize_idempotent (productId size : string) (st : Provider) :
  UniqueProductSizes (items (updateItemSize productId size st))
  /\ (forall it, In it (items (updateItemSize productId size st)) ->
                 id (product it) = productId -> selectedSize it = Some size)
  /\ items (updateItemSize productId size (updateItemSize productId size st))
     = items (updateItemSize productId size st).
Proof.
  unfold updateItemSize. rewrite !items_setItems.
  assert (Hsized : forall it,
             In it (updateItemSize_updater productId size (items st)) ->
             id (product it) = productId -> selectedSize it = Some size).
  { intros it Hit. unfold updateItemSize_updater in Hit.
    rewrite keepFirstOccurrences_firsts in Hit.
    apply firstsAfter_In in Hit. destruct Hit as [Hit _].
    intros Hid. now apply (transformed_sizes productId size (items st)). }
  split; [apply UniqueProductSizes_updateItemSize|]. split; [exact Hsized|].
  apply updateItemSize_updater_fixed;
    [apply UniqueProductSizes_updateItemSize|exact Hsized].
Qed.

Lemma updateItemSize_idempotent_witness :
  selectedSize (mkCartItem shirt 5 None (Some "M"%string)) = Some "M"%string.
Proof.
  apply (proj1 (proj2 (updateItemSize_idempotent "shirt" "M"
                         (mkProvider
                            [mkCartItem shirt 1 None (Some "S"%string);
                             mkCartItem shirt 4 None (Some "M"%string)]
                            None None false)))).
  - left. reflexivity.
  - reflexivity.
Defined.

Lemma ofProduct_true productId it :
  ofProduct productId it = true <-> id (product it) = productId.
Proof. apply String.eqb_eq. Qed.

Lemma ofProduct_false productId it :
  ofProduct productId it = false <-> id (product it) <> productId.
Proof. apply String.eqb_neq. Qed.

Lemma mapi_from_filter_others n productId size prev l :
  filter (fun it => negb (ofProduct productId it))
    (mapi_from n (resizeItem productId size prev) l)
  = filter (fun it => negb (ofProduct productId it)) l.
Proof.
  revert n. induction l as [|a r IH]; intros n; simpl; [reflexivity|].
  rewrite IH.
  assert (H : ofProduct productId (resizeItem productId size prev n a)
              = ofProduct productId a)
    by (unfold ofProduct; now rewrite resizeItem_id).
  rewrite H. destruct (ofProduct productId a) eqn:E; simpl; [reflexivity|].
  apply ofProduct_false in E. now rewrite resizeItem_other.
Qed.

Lemma firstsAfter_filter_others productId seen l :
  (forall x s, In x l -> In s seen -> id (product x) <> productId ->
               productSizeKey x <> productSizeKey s) ->
  UniqueProductSizes (filter (fun it => negb (ofProduct productId it)) l) ->
  filter (fun it => negb (ofProduct productId it)) (firstsAfter seen l)
  = filter (fun it => negb (ofProduct productId it)) l.
Proof.
  revert seen. induction l as [|a r IH]; intros seen Hseen Hn; simpl;
    [reflexivity|].
  simpl in Hn. destruct (ofProduct productId a) eqn:Ea; simpl in *.
  - apply ofProduct_true in Ea.
    assert (Hrec : filter (fun it => negb (ofProduct productId it))
                     (firstsAfter (seen ++ [a]) r)
                   = filter (fun it => negb (ofProduct productId it)) r).
    { apply IH; [|assumption]. intros x s Hx Hs Hid Hk.
      apply in_app_or in Hs. destruct Hs as [Hs|[<-|[]]].
      - now apply (Hseen x s); auto.
      - injection Hk as Hk _. congruence. }
    destruct (existsb (sameProductAndSize a) seen); [assumption|].
    simpl. rewrite (proj2 (ofProduct_true productId a) Ea). simpl.
    assumption.
  - pose proof (proj1 (ofProduct_false productId a) Ea) as Ea'.
    inversion Hn as [|? ? Hnotin Hn']; subst.
    assert (E : existsb (sameProductAndSize a) seen = false).
    { destruct (existsb (sameProductAndSize a) seen) eqn:E; [|reflexivity].
      apply existsb_exists in E. destruct E as (s & Hs & Hk).
      apply sameProductAndSize_true in Hk.
      destruct (Hseen a s); auto. }
    rewrite E. simpl. rewrite Ea. simpl. f_equal.
    apply IH; [|assumption]. intros x s Hx Hs Hid Hk.
    apply in_app_or in Hs. destruct Hs as [Hs|[<-|[]]].
    + now apply (Hseen x s); auto.
    + apply Hnotin. rewrite <- Hk. apply in_map. apply filter_In.
      split; [assumption|].
      now rewrite (proj2 (ofProduct_false productId x) Hid).
Qed.

(** X9. On a cart without two line items of the same product ID and size,
    [updateItemSize productId size] leaves the line items of every other
    product as they are, in their order; on a cart with no line item of
    [productId] it changes nothing. *)
Theorem updateItemSize_keeps_other_products (productId size : string)
    (st : Provider) :
  UniqueProductSizes (items st) ->
  filter (fun it => negb (ofProduct productId it))
    (items (updateItemSize productId size st))
  = filter (fun it => negb (ofProduct productId it)) (items st)
  /\ ((forall it, In it (items st) -> id (product it) <> productId) ->
      items (updateItemSize productId size st) = items st).
Proof.
  intros Hn. unfold updateItemSize. rewrite items_setItems. split.
  - unfold updateItemSize_updater. rewrite keepFirstOccurrences_firsts.
    rewrite firstsAfter_filter_others.
    + apply mapi_from_filter_others.
    + intros x s _ [].
    + unfold mapi. rewrite mapi_from_filter_others.
      now apply NoDup_map_filter.
  - intros Habsent. apply updateItemSize_updater_fixed; [assumption|].
    intros x Hx Hid. now destruct (Habsent x Hx).
Qed.

Lemma sample_cart_unique :
  UniqueProductSizes
    (items (run [OpAddItem mug (Some 2) None None;
                 OpAddItem shirt (Some 1) None (Some "L"%string)]
              (mount None))).
Proof.
  unfold UniqueProductSizes. simpl. constructor.
  - intros [H|[]]. discriminate.
  - constructor; [intros []|constructor].
Defined.

Lemma updateItemSize_keeps_other_products_witness :
  items (updateItemSize "bowl" "M"
           (run [OpAddItem mug (Some 2) None None;
                 OpAddItem shirt (Some 1) None (Some "L"%string)]
              (mount None)))
  = [mkCartItem mug 2 None None; mkCartItem shirt 1 None (Some "L"%string)].
Proof.
  apply (proj2 (updateItemSize_keeps_other_products "bowl" "M"
                  (run [OpAddItem mug (Some 2) None None;
                        OpAddItem shirt (Some 1) None (Some "L"%string)]
                     (mount None))
                  sample_cart_unique)).
  intros it [<-|[<-|[]]]; discriminate.
Defined.

(** ** More on replaceItem *)

Lemma update_at_In_cases {A : Type} i (f : A -> A) (l : list A) y :
  In y (update_at i f l) -> In y l \/ exists x, In x l /\ y = f x.
Proof.
  revert i. induction l as [|a r IH]; intros [|i]; simpl; auto.
  - intros [<-|H]; [right; exists a; auto|auto].
  - intros [<-|H]; [auto|]. destruct (IH _ H) as [H'|(x & Hx & ->)]; eauto.
Qed.

Lemma filter_removeItem_updater (g : CartItem -> bool) productId l :
  (forall it, g it = true -> id (product it) <> productId) ->
  filter g (removeItem_updater productId l) = filter g l.
Proof.
  intros Hg. unfold removeItem_updater.
  induction l as [|a r IH]; simpl; [reflexivity|].
  destruct (String.eqb (id (product a)) productId) eqn:E; simpl.
  - destruct (g a) eqn:Ea; [|assumption].
    apply String.eqb_eq in E. now destruct (Hg a Ea).
  - now rewrite IH.
Qed.

(** X10. [replaceItem oldProductId newProduct]: when the new product has
    another ID than the old one, no line item of the old product is left;
    in every case the cart then holds a line item of the new product; and
    the line items of all products other than these two are as before, in
    their order. *)
Theorem replaceItem_swaps_products (oldProductId : string) (newProduct : Item)
    (q : option Z) (variants : option (list (string * string)))
    (size : option string) (st : Provider) :
  let result := items (replaceItem oldProductId newProduct q variants size st) in
  let elsewhere := fun it : CartItem =>
    negb (ofProduct oldProductId it) && negb (ofProduct (id newProduct) it) in
  (id newProduct <> oldProductId ->
   forall it, In it result -> id (product it) <> oldProductId)
  /\ (exists it, In it result /\ id (product it) = id newProduct)
  /\ filter elsewhere result = filter elsewhere (items st).
Proof.
  intros result elsewhere. subst result. unfold replaceItem.
  rewrite items_setItems. unfold replaceItem_updater. cbv zeta.
  assert (Hels : forall it, elsewhere it = true ->
                            id (product it) <> oldProductId).
  { intros it H. apply andb_true_iff in H. destruct H as [H _].
    apply negb_true_iff in H. now apply ofProduct_false in H. }
  assert (Hnew : forall it, id (product it) = id newProduct ->
                            elsewhere it = false).
  { intros it H. apply andb_false_iff. right. apply negb_false_iff.
    now apply ofProduct_true. }
  destruct (findIndex (matchesProduct newProduct size)
              (removeItem_updater oldProductId (items st))) as [i|] eqn:E.
  - apply findIndex_matchesProduct in E.
    destruct E as (ex & Hnth & [Hid _] & _). split; [|split].
    + intros _ it Hit. apply update_at_In_cases in Hit.
      destruct Hit as [Hit|(x & Hx & ->)]; simpl.
      * now apply removeItem_updater_In in Hit.
      * now apply removeItem_updater_In in Hx.
    + eexists. split.
      * eapply nth_error_In. apply (update_at_nth_same _ _ _ _ Hnth).
      * exact Hid.
    + rewrite filter_update_at.
      * now apply filter_removeItem_updater.
      * intros x. reflexivity.
      * intros x Hx. assert (x = ex) by congruence. subst x.
        now apply Hnew.
  - split; [|split].
    + intros Hne it Hit. apply in_app_or in Hit.
      destruct Hit as [Hit|[<-|[]]].
      * now apply removeItem_updater_In in Hit.
      * exact Hne.
    + eexists. split; [apply in_or_app; right; left; reflexivity|].
      reflexivity.
    + rewrite filter_app. simpl.
      match goal with
      | |- context [elsewhere ?x] => rewrite (Hnew x eq_refl)
      end.
      rewrite app_nil_r. now apply filter_removeItem_updater.
Qed.

Lemma replaceItem_swaps_products_witness :
  Forall (fun it => id (product it) <> "mug"%string)
    (items (replaceItem "mug" bowl None None None
              (run [OpAddItem mug (Some 3) None None;
                    OpAddItem shirt (Some 1) None (Some "M"%string)]
                 (mount None)))).
Proof.
  apply Forall_forall.
  apply (proj1 (replaceItem_swaps_products "mug" bowl None None None
                  (run [OpAddItem mug (Some 3) None None;
                        OpAddItem shirt (Some 1) None (Some "M"%string)]
                     (mount None)))).
  discriminate.
Defined.

(** X11. Replacing a product by a record of the same product ID, when the
    cart holds a line item of it: all its line items are removed, whatever
    their sizes, and one line item is appended with the new record,
    variants and size and with the quantity of the first old line item (1
    if that quantity is 0); the requested quantity is not used. *)
Theorem replaceItem_by_same_product (newProduct : Item) (q : option Z)
    (variants : option (list (string * string))) (size : option string)
    (st : Provider) (old : CartItem) :
  findOldItem (id newProduct) (items st) = Some old ->
  items (replaceItem (id newProduct) newProduct q variants size st)
  = filter (fun it => negb (ofProduct (id newProduct) it)) (items st)
    ++ [mkCartItem newProduct (capturedQuantity old) variants size].
Proof.
  intros Hold. unfold replaceItem. rewrite items_setItems.
  rewrite replaceItem_updater_unmatched.
  - rewrite Hold. simpl oldQuantityOf.
    assert (Hsame : sameCategoryReplacement (id newProduct) newProduct
                      (items st) = true).
    { apply sameCategoryReplacement_true. left. exists old.
      now apply findOldItem_Some. }
    now rewrite Hsame.
  - intros it Hit [Hid _]. apply removeItem_updater_In in Hit. tauto.
Qed.

Lemma replaceItem_by_same_product_witness :
  items (replaceItem "shirt" shirt (Some 9) None (Some "S"%string)
           (run [OpAddItem shirt (Some 2) None (Some "M"%string);
                 OpAddItem mug (Some 1) None None;
                 OpAddItem shirt (Some 5) None (Some "L"%string)]
              (mount None)))
  = [mkCartItem mug 1 None None; mkCartItem shirt 2 None (Some "S"%string)].
Proof.
  apply (replaceItem_by_same_product shirt (Some 9) None (Some "S"%string)
           (run [OpAddItem shirt (Some 2) None (Some "M"%string);
                 OpAddItem mug (Some 1) None None;
                 OpAddItem shirt (Some 5) None (Some "L"%string)]
              (mount None))
           (mkCartItem shirt 2 None (Some "M"%string))).
  reflexivity.
Defined.

(** ** More on updateQuantity *)

(** X12. [updateQuantity] on a product the cart does not hold changes
    nothing, whatever the quantity; and of two calls with positive
    quantities for one product the second one decides: the result is that of
    the second call alone. *)
Theorem updateQuantity_absent_and_last_wins (productId : string) (q q' : Z)
    (st : Provider) :
  ((forall it, In it (items st) -> id (product it) <> productId) ->
   items (updateQuantity productId q st) = items st)
  /\ (0 < q -> 0 < q' ->
      items (updateQuantity productId q' (updateQuantity productId q st))
      = items (updateQuantity productId q' st)).
Proof.
  split.
  - intros Habsent. unfold updateQuantity. destruct (q <=? 0).
    + unfold removeItem. rewrite items_setItems.
      now apply removeItem_updater_absent.
    + rewrite items_setItems. unfold updateQuantity_updater.
      rewrite <- (map_id (items st)) at 2. apply map_ext_in. intros it Hit.
      now rewrite (proj2 (String.eqb_neq _ _) (Habsent it Hit)).
  - intros Hq Hq'. unfold updateQuantity.
    rewrite (proj2 (Z.leb_gt q 0) Hq), (proj2 (Z.leb_gt q' 0) Hq').
    rewrite !items_setItems. unfold updateQuantity_updater.
    rewrite map_map. apply map_ext. intros it.
    destruct (String.eqb (id (product it)) productId) eqn:E; simpl;
      now rewrite E.
Qed.

Lemma updateQuantity_absent_and_last_wins_witness :
  items (updateQuantity "mug" 7
           (updateQuantity "mug" 4
              (run [OpAddItem mug (Some 2) None None] (mount None))))
  = [mkCartItem mug 7 None None].
Proof.
  rewrite (proj2 (updateQuantity_absent_and_last_wins "mug" 4 7
                    (run [OpAddItem mug (Some 2) None None] (mount None)))
             ltac:(lia) ltac:(lia)).
  reflexivity.
Defined.

(** ** Positive quantities *)

Lemma AllPositive_removeItem productId l :
  AllPositive l -> AllPositive (removeItem_updater productId l).
Proof.
  intros H. apply Forall_forall. intros x Hx.
  apply removeItem_updater_In in Hx.
  now apply (proj1 (Forall_forall _ _) H).
Qed.

Lemma AllPositive_addItem p q variants size l :
  0 < q -> AllPositive l -> AllPositive (addItem_updater p q variants size l).
Proof.
  intros Hq H. unfold addItem_updater.
  destruct (findIndex (matchesProduct p size) l).
  - apply update_at_Forall; [|assumption]. intros x Hx. simpl. lia.
  - apply Forall_app. split; [assumption|]. constructor; [exact Hq|constructor].
Qed.

Lemma AllPositive_updateQuantity productId q l :
  0 < q -> AllPositive l -> AllPositive (updateQuantity_updater productId q l).
Proof.
  intros Hq H. unfold updateQuantity_updater. apply Forall_forall.
  intros y Hy. apply in_map_iff in Hy. destruct Hy as (x & <- & Hx).
  pose proof (proj1 (Forall_forall _ _) H x Hx) as Hpos.
  now destruct (String.eqb (id (product x)) productId).
Qed.

Lemma AllPositive_updateItemSize productId size l :
  AllPositive l -> AllPositive (updateItemSize_updater productId size l).
Proof.
  intros H. pose proof (proj1 (Forall_forall _ _) H) as Hall.
  unfold updateItemSize_updater. rewrite keepFirstOccurrences_firsts.
  apply Forall_forall. intros y Hy. apply firstsAfter_In in Hy.
  destruct Hy as [Hy _]. apply mapi_from_In in Hy.
  destruct Hy as (i & x & Hx & ->).
  destruct (resizeItem_cases productId size l i x)
    as [[_ ->]|[[_ ->]|[_ (e & ex & (Hnth & _) & _ & ->)]]].
  - now apply Hall.
  - now apply (Hall x).
  - apply nth_error_In in Hnth. simpl.
    pose proof (Hall ex Hnth). pose proof (Hall x Hx). simpl in *. lia.
Qed.

Lemma numOr_positive q : 0 <= q -> 0 < numOr q 1.
Proof. intros H. unfold numOr. destruct (q =? 0) eqn:E; [lia|]. apply Z.eqb_neq in E. lia. Qed.

Lemma oldQuantityOf_positive oldProductId l :
  AllPositive l -> 0 < oldQuantityOf (findOldItem oldProductId l).
Proof.
  intros H. destruct (findOldItem oldProductId l) as [old|] eqn:E; simpl;
    [|lia].
  apply findOldItem_Some in E. destruct E as [Hin _].
  apply numOr_positive.
  pose proof (proj1 (Forall_forall _ _) H old Hin). simpl in *. lia.
Qed.

Lemma AllPositive_replaceItem oldProductId p q variants size l :
  0 <= q -> AllPositive l ->
  AllPositive (replaceItem_updater oldProductId p q variants size l).
Proof.
  intros Hq H. pose proof (oldQuantityOf_positive oldProductId l H) as Hold.
  pose proof (numOr_positive q Hq) as Hreq.
  apply (AllPositive_removeItem oldProductId) in H.
  unfold replaceItem_updater. cbv zeta.
  destruct (findIndex (matchesProduct p size) (removeItem_updater oldProductId l)).
  - apply update_at_Forall; [|assumption]. intros x Hx. simpl.
    destruct (sameCategoryReplacement oldProductId p l); lia.
  - apply Forall_app. split; [assumption|]. constructor; [|constructor].
    simpl. now destruct (sameCategoryReplacement oldProductId p l).
Qed.

Lemma AllPositive_call st op :
  PositiveRequest op -> AllPositive (items st) ->
  AllPositive (items (call st op)).
Proof.
  intros Hop H.
  destruct op as [p q v s|pid|pid q|pid s|o n q v s| | |r]; simpl in *;
    unfold value_addItem, value_removeItem, value_updateQuantity,
      value_updateItemSize, value_replaceItem;
    try (rewrite items_dispatch_gated;
         destruct (directPurchaseItem st); [assumption|]).
  - now apply AllPositive_addItem.
  - now apply AllPositive_removeItem.
  - unfold updateQuantity. destruct (q <=? 0) eqn:E.
    + now apply AllPositive_removeItem.
    + apply AllPositive_updateQuantity; [|assumption]. now apply Z.leb_gt.
  - now apply AllPositive_updateItemSize.
  - now apply AllPositive_replaceItem.
  - constructor.
  - unfold value_clearDirectPurchase, dispatch.
    now rewrite items_commitEffects.
  - unfold value_setDirectPurchaseItem, dispatch.
    now rewrite items_commitEffects.
Qed.

(** X13. The cart keeps its line items at positive quantities as long as
    [addItem] is asked for a positive quantity (or none) and [replaceItem]
    for a non-negative one (or none): from a cart of positive quantities, in
    particular the empty one, every sequence of such calls, with any
    [updateQuantity], [updateItemSize], [removeItem] and the other
    operations in between, leaves every line item with a quantity above 0,
    and so a sum of quantities that is not negative. *)
Theorem quantities_stay_positive (ops : list Op) (st : Provider) :
  Forall PositiveRequest ops ->
  AllPositive (items st) ->
  AllPositive (items (run ops st)) /\ 0 <= itemCount (items (run ops st)).
Proof.
  intros Hops Hst.
  assert (Hpos : AllPositive (items (run ops st))).
  { revert st Hst. induction Hops as [|op ops Hop Hops IH]; intros st Hst;
      simpl; [assumption|].
    apply IH. now apply AllPositive_call. }
  split; [exact Hpos|].
  induction Hpos as [|x l Hx Hl IHl]; [reflexivity|].
  rewrite itemCount_cons. lia.
Qed.

Lemma quantities_stay_positive_witness :
  AllPositive
    (items (run [OpAddItem shirt (Some 2) None (Some "M"%string);
                 OpAddItem mug None None None;
                 OpUpdateQuantity "shirt" (-3);
                 OpReplaceItem "mug" bowl (Some 0) None None]
              (mount None))).
Proof.
  apply (quantities_stay_positive
           [OpAddItem shirt (Some 2) None (Some "M"%string);
            OpAddItem mug None None None;
            OpUpdateQuantity "shirt" (-3);
            OpReplaceItem "mug" bowl (Some 0) None None]
           (mount None)).
  - repeat constructor; simpl; lia.
  - constructor.
Defined.

(** ** updateItemSize on a product with one line item *)

Lemma mapi_from_update_at {A : Type} n (g : nat -> A -> A) i (f : A -> A)
    (l : list A) :
  (forall j y, nth_error l j = Some y ->
               g (n + j)%nat y = if Nat.eqb j i then f y else y) ->
  mapi_from n g l = update_at i f l.
Proof.
  revert n i. induction l as [|a r IH]; intros n i H; simpl.
  - now destruct i.
  - destruct i as [|i]; simpl.
    + f_equal.
      * rewrite <- (Nat.add_0_r n). now apply (H 0%nat).
      * apply mapi_from_fixed. intros j y Hy.
        rewrite Nat.add_succ_l, <- Nat.add_succ_r. now apply (H (S j)).
    + f_equal.
      * rewrite <- (Nat.add_0_r n). now apply (H 0%nat).
      * apply IH. intros j y Hy.
        rewrite Nat.add_succ_l, <- Nat.add_succ_r. now apply (H (S j)).
Qed.

Lemma update_at_In_at {A : Type} i (f : A -> A) (l : list A) x y :
  nth_error l i = Some x -> In y (update_at i f l) -> In y l \/ y = f x.
Proof.
  revert i. induction l as [|a r IH]; intros [|i]; simpl; try discriminate.
  - intros [= ->] [<-|H]; auto.
  - intros Hx [<-|H]; [auto|]. destruct (IH i Hx H); auto.
Qed.

Lemma NoDup_map_update_at {A B : Type} (key : A -> B) i (f : A -> A)
    (l : list A) x :
  NoDup (map key l) ->
  nth_error l i = Some x ->
  (forall j y, j <> i -> nth_error l j = Some y -> key y <> key (f x)) ->
  NoDup (map key (update_at i f l)).
Proof.
  revert i. induction l as [|a r IH]; intros [|i] Hn Hx Hother; simpl in *;
    try discriminate.
  - injection Hx as ->. inversion Hn as [|? ? _ Hn']; subst.
    constructor; [|assumption]. intros Hin. apply in_map_iff in Hin.
    destruct Hin as (y & Hk & Hy). apply In_nth_error in Hy.
    destruct Hy as (j & Hj). now apply (Hother (S j) y).
  - inversion Hn as [|? ? Hnotin Hn']; subst. constructor.
    + intros Hin. apply in_map_iff in Hin. destruct Hin as (y & Hk & Hy).
      destruct (update_at_In_at _ _ _ _ _ Hx Hy) as [Hy'| ->].
      * apply Hnotin. rewrite <- Hk. now apply in_map.
      * now apply (Hother 0%nat a).
    + apply (IH i); auto. intros j y Hj Hy.
      apply (Hother (S j) y); [congruence|assumption].
Qed.

(** X14. When the cart has no two line items of the same product ID and
    size and holds exactly one line item of the product, [updateItemSize]
    sets the size of that line item and changes nothing else: its quantity,
    variants and position stay, the other line items stay, and the sum of
    the quantities is the same. *)
Theorem updateItemSize_single_line (productId size : string) (st : Provider)
    (i : nat) (x : CartItem) :
  UniqueProductSizes (items st) ->
  nth_error (items st) i = Some x ->
  id (product x) = productId ->
  (forall j y, j <> i -> nth_error (items st) j = Some y ->
               id (product y) <> productId) ->
  items (updateItemSize productId size st)
  = update_at i
      (fun it => mkCartItem (product it) (quantity it) (selectedVariants it)
                   (Some size))
      (items st)
  /\ itemCount (items (updateItemSize productId size st))
     = itemCount (items st).
Proof.
  intros Hn Hx Hid Hothers. unfold updateItemSize. rewrite items_setItems.
  set (f := fun it : CartItem =>
              mkCartItem (product it) (quantity it) (selectedVariants it)
                (Some size)).
  assert (Hmap : mapi (resizeItem productId size (items st)) (items st)
                 = update_at i f (items st)).
  { apply mapi_from_update_at. intros j y Hy. simpl.
    destruct (Nat.eqb j i) eqn:Eji.
    - apply Nat.eqb_eq in Eji. subst j.
      assert (y = x) by congruence. subst y.
      apply resizeItem_plain; [assumption|].
      destruct (findIndex (isTarget productId size) (items st)) as [e|] eqn:E;
        [|now left].
      right. f_equal. destruct (Nat.eq_dec e i) as [->|Hne]; [reflexivity|].
      apply findIndex_isTarget in E. destruct E as (ex & Hex & [Hid' _] & _).
      now destruct (Hothers e ex Hne Hex).
    - apply Nat.eqb_neq in Eji. apply resizeItem_other.
      now apply (Hothers j y). }
  assert (Hres : updateItemSize_updater productId size (items st)
                 = update_at i f (items st)).
  { unfold updateItemSize_updater. rewrite Hmap, keepFirstOccurrences_firsts.
    apply firstsAfter_fixed; [intros ? ? _ []|].
    apply (NoDup_map_update_at productSizeKey i f (items st) x); auto.
    intros j y Hj Hy Hk. injection Hk as Hk _.
    apply (Hothers j y Hj Hy). simpl in Hk. congruence. }
  split; [exact Hres|].
  rewrite Hres, (itemCount_update_at _ _ _ _ Hx). simpl. lia.
Qed.

Lemma updateItemSize_single_line_witness :
  items (updateItemSize "shirt" "M"
           (run [OpAddItem mug (Some 2) None None;
                 OpAddItem shirt (Some 1) None (Some "L"%string)]
              (mount None)))
  = [mkCartItem mug 2 None None; mkCartItem shirt 1 None (Some "M"%string)].
Proof.
  apply (proj1 (updateItemSize_single_line "shirt" "M"
                  (run [OpAddItem mug (Some 2) None None;
                        OpAddItem shirt (Some 1) None (Some "L"%string)]
                     (mount None))
                  1%nat (mkCartItem shirt 1 None (Some "L"%string))
                  sample_cart_unique
                  eq_refl eq_refl
                  ltac:(intros [|[|j]] y Hj Hy; simpl in Hy;
                        [injection Hy as <-; discriminate
                        |congruence
                        |destruct j; discriminate]))).
Defined.

(** ** Item count and removal *)

Lemma itemCount_split (g : CartItem -> bool) l :
  itemCount l = itemCount (filter g l) + itemCount (filter (fun it => negb (g it)) l).
Proof.
  induction l as [|a r IH]; simpl; [reflexivity|].
  rewrite itemCount_cons, IH.
  destruct (g a); simpl; rewrite itemCount_cons; lia.
Qed.

(** X15. [removeItem productId] lowers the sum of the quantities of the cart
    by the quantities of the line items of that product, all sizes
    together. *)
Theorem removeItem_lowers_itemCount (productId : string) (st : Provider) :
  itemCount (items (removeItem productId st))
  = itemCount (items st) - itemCount (filter (ofProduct productId) (items st)).
Proof.
  unfold removeItem. rewrite items_setItems.
  rewrite (itemCount_split (ofProduct productId) (items st)).
  unfold removeItem_updater, ofProduct. lia.
Qed.
